(** * tf-mdp: the Markov recurrent model cell and the planner base class

    A shallow embedding of [tfmdp/train/mrm.py] (class [MRMCell]) and of
    [tfmdp/train/planner.py] (class [PolicyOptimizationPlanner]), together
    with the properties of the simulation core that the specification
    states about them.

    Tensors are dense arrays given by a dtype, a shape and their elements in
    row-major order.  The scalar carrier and its arithmetic are left
    abstract (no algebraic law of floating-point addition is assumed), and
    so is the state of the external world (random generators and graph
    state owned by the compiler and the policy). *)

From Stdlib Require Import ZArith List Bool Lia.
From stdpp Require Import gmap strings list fin_maps.

(** ** Python exceptions and fallible results *)

Inductive Exn : Type :=
  | ValueError
  | TypeError
  | KeyError
  | AttributeError (attr : string)
  | NameError (name : string)
  | ImportError (module : string)
  | NotImplementedError.

Inductive result (A : Type) : Type :=
  | Ok (a : A)
  | Raise (e : Exn).

Arguments Ok {A} a.
Arguments Raise {A} e.

Definition bindR {A B : Type} (r : result A) (k : A -> result B) : result B :=
  match r with
  | Ok a => k a
  | Raise e => Raise e
  end.

#[global] Instance result_ret : MRet result := @Ok.
#[global] Instance result_bind : MBind result := fun A B k r => bindR r k.

Definition is_ok {A : Type} (r : result A) : bool :=
  match r with Ok _ => true | Raise _ => false end.

(** ** Element types of tensors *)

Inductive DType : Type :=
  | float32
  | float64
  | int32
  | int64
  | bool_.

#[global] Instance DType_eq_dec : EqDecision DType.
Proof. solve_decision. Defined.

Definition Shape : Type := list nat.

(** Number of elements of a tensor of shape [s]. *)
Definition size_of (s : Shape) : nat := foldr Nat.mul 1 s.

(** Slice number [i] of width [p] of a row-major buffer. *)
Definition slice {A : Type} (p i : nat) (d : list A) : list A :=
  take p (drop (i * p) d).

(** Shapes of equal rank broadcast dimension by dimension: equal extents,
    or one of them is 1. *)
Fixpoint bcast_dims (s1 s2 : Shape) : option Shape :=
  match s1, s2 with
  | [], [] => Some []
  | a :: s1', b :: s2' =>
      match (if a =? b then Some a
             else if a =? 1 then Some b
             else if b =? 1 then Some a
             else None), bcast_dims s1' s2' with
      | Some d, Some r => Some (d :: r)
      | _, _ => None
      end
  | _, _ => None
  end.

(** The shorter shape is padded with leading 1s. *)
Definition pad_shape (r : nat) (s : Shape) : Shape :=
  repeat 1 (r - length s) ++ s.

Definition broadcast_shape (s1 s2 : Shape) : option Shape :=
  let r := Nat.max (length s1) (length s2) in
  bcast_dims (pad_shape r s1) (pad_shape r s2).

(** Elements of a buffer of shape [s] laid out at the broadcast shape [tgt]
    (both of the same rank). *)
Fixpoint broadcast_to {A : Type} (s tgt : Shape) (d : list A) : list A :=
  match s, tgt with
  | k :: s', K :: tgt' =>
      let p := size_of s' in
      if k =? K
      then concat (map (fun i => broadcast_to s' tgt' (slice p i d)) (seq 0 K))
      else concat (repeat (broadcast_to s' tgt' (take p d)) K)
  | _, _ => d
  end.

(** ** Tensors *)

(** What the runtime provides on the scalar carrier [Scalar] (the content
    of one element of a tensor).  No law is assumed of any of these. *)
Class ScalarOps (Scalar : Type) : Type := {
  (** addition of two elements, as the runtime computes it *)
  add : Scalar -> Scalar -> Scalar;
  (** the value of an empty sum *)
  zero : Scalar;
  (** [tf.cast] on one element, from a dtype to a dtype *)
  cast_scalar : DType -> DType -> Scalar -> Scalar;
  (** the element that stands for an integer constant *)
  of_Z : Z -> Scalar
}.

Record Tensor (Scalar : Type) : Type := mkTensor {
  dtype : DType;
  shape : Shape;
  data : list Scalar
}.

Arguments mkTensor {Scalar} dtype shape data.
Arguments dtype {Scalar} t.
Arguments shape {Scalar} t.
Arguments data {Scalar} t.

(** A [rddl2tf] tensor fluent: a tensor with the names of its parameters
    and whether it carries a batch axis.  The cell only reads [tensor]. *)
Record TensorFluent (Scalar : Type) : Type := mkFluent {
  tensor : Tensor Scalar;
  fluent_scope : list string;
  batch : bool
}.

Arguments mkFluent {Scalar} tensor fluent_scope batch.
Arguments tensor {Scalar} t.
Arguments fluent_scope {Scalar} t.
Arguments batch {Scalar} t.

(** [FluentTriple = Tuple[str, TensorFluent, TensorFluent]]: name, value,
    log-probability. *)
Definition FluentTriple (Scalar : Type) : Type :=
  (string * TensorFluent Scalar * TensorFluent Scalar)%type.

(** [CellOutput]: next state, action, intermediate state, reward,
    log-probability. *)
Definition CellOutput (Scalar : Type) : Type :=
  (list (Tensor Scalar) * list (Tensor Scalar) * list (Tensor Scalar)
   * Tensor Scalar * Tensor Scalar)%type.

Definition fluent_name {Scalar : Type} (f : FluentTriple Scalar) : string :=
  let '(name, _, _) := f in name.

Definition out_next_state {Scalar : Type} (o : CellOutput Scalar) : list (Tensor Scalar) :=
  let '(next_state, _, _, _, _) := o in next_state.
Definition out_action {Scalar : Type} (o : CellOutput Scalar) : list (Tensor Scalar) :=
  let '(_, action, _, _, _) := o in action.
Definition out_interm_state {Scalar : Type} (o : CellOutput Scalar) : list (Tensor Scalar) :=
  let '(_, _, interm_state, _, _) := o in interm_state.
Definition out_reward {Scalar : Type} (o : CellOutput Scalar) : Tensor Scalar :=
  let '(_, _, _, reward, _) := o in reward.
Definition out_log_prob {Scalar : Type} (o : CellOutput Scalar) : Tensor Scalar :=
  let '(_, _, _, _, log_prob) := o in log_prob.

Section TensorOps.

Context {Scalar : Type} `{!ScalarOps Scalar}.

Definition well_shaped (t : Tensor Scalar) : Prop :=
  length (data t) = size_of (shape t).

(** Row [i] along the leading (batch) axis. *)
Definition batch_row (t : Tensor Scalar) (i : nat) : list Scalar :=
  slice (size_of (tail (shape t))) i (data t).

(** Sum of the elements of a list, left to right; the empty sum is
    [zero]. *)
Definition sum_scalars (l : list Scalar) : Scalar :=
  match l with
  | [] => zero
  | x :: xs => foldl add x xs
  end.

(** Element-wise sum of a list of pieces of width [p], left to right. *)
Definition sum_pieces (p : nat) (pieces : list (list Scalar)) : list Scalar :=
  match pieces with
  | [] => repeat zero p
  | x :: xs => foldl (zip_with add) x xs
  end.

(** *** The TensorFlow operations used by the cell *)

(** [tf.split(t, [1, 1], axis=1)]. *)
Definition tf_split_1_1 (t : Tensor Scalar) : result (Tensor Scalar * Tensor Scalar) :=
  match shape t with
  | b :: 2 :: rest =>
      let p := size_of rest in
      let part (k : nat) :=
        {| dtype := dtype t;
           shape := b :: 1 :: rest;
           data := concat (map (fun i => slice p k (batch_row t i)) (seq 0 b)) |} in
      Ok (part 0, part 1)
  | _ => Raise ValueError
  end.

(** Extent of axis 1. *)
Definition axis1 (s : Shape) : nat :=
  match s with
  | _ :: n :: _ => n
  | _ => 0
  end.

(** Shapes of rank at least 2 that agree everywhere but on axis 1. *)
Definition concat_compatible (t u : Tensor Scalar) : bool :=
  match shape t, shape u with
  | b :: _ :: rest, b' :: _ :: rest' =>
      bool_decide (b = b') && bool_decide (rest = rest')
  | _, _ => false
  end.

(** [tf.concat(values, axis=1)].  One value is returned as it is; no
    value at all is a [ValueError], values of different dtypes are a
    [TypeError], and shapes that do not fit are a [ValueError]. *)
Definition tf_concat (values : list (Tensor Scalar)) : result (Tensor Scalar) :=
  match values with
  | [] => Raise ValueError
  | [t] => Ok t
  | t :: _ =>
      if forallb (fun u => bool_decide (dtype u = dtype t)) values then
        if forallb (concat_compatible t) values
        then Ok {| dtype := dtype t;
                   shape := hd 0 (shape t)
                              :: foldr Nat.add 0 (map (fun u => axis1 (shape u)) values)
                              :: tail (tail (shape t));
                   data := concat (map (fun i =>
                                     concat (map (fun u => batch_row u i) values))
                                   (seq 0 (hd 0 (shape t)))) |}
        else Raise ValueError
      else Raise TypeError
  end.

(** [tf.reduce_sum(t, axis=1)]. *)
Definition tf_reduce_sum (t : Tensor Scalar) : result (Tensor Scalar) :=
  match dtype t, shape t with
  | bool_, _ => Raise TypeError
  | _, b :: n :: rest =>
      let p := size_of rest in
      Ok {| dtype := dtype t;
            shape := b :: rest;
            data := concat (map (fun i =>
                              sum_pieces p (map (fun j => slice p j (batch_row t i))
                                                (seq 0 n)))
                            (seq 0 b)) |}
  | _, _ => Raise ValueError
  end.

(** [x + y] on tensors, with broadcasting. *)
Definition tf_add (x y : Tensor Scalar) : result (Tensor Scalar) :=
  if bool_decide (dtype x = dtype y) then
    match broadcast_shape (shape x) (shape y) with
    | Some s =>
        let r := length s in
        Ok {| dtype := dtype x;
              shape := s;
              data := zip_with add
                        (broadcast_to (pad_shape r (shape x)) s (data x))
                        (broadcast_to (pad_shape r (shape y)) s (data y)) |}
    | None => Raise ValueError
    end
  else Raise TypeError.

(** [tf.expand_dims(t, -1)]. *)
Definition tf_expand_dims (t : Tensor Scalar) : Tensor Scalar :=
  {| dtype := dtype t; shape := shape t ++ [1]; data := data t |}.

(** [tf.cast(t, dt)]. *)
Definition tf_cast (t : Tensor Scalar) (dt : DType) : Tensor Scalar :=
  {| dtype := dt; shape := shape t; data := map (cast_scalar (dtype t) dt) (data t) |}.

(** *** The methods of [MRMCell] that build no new randomness *)

(** [[log_prob.tensor for _, _, log_prob in fluents]]. *)
Definition log_prob_tensors (fluents : list (FluentTriple Scalar)) : list (Tensor Scalar) :=
  map (fun '(_, _, log_prob) => tensor log_prob) fluents.

(** [MRMCell._log_prob]. *)
Definition _log_prob (interm_fluents next_state_fluents : list (FluentTriple Scalar))
  : result (Tensor Scalar) :=
  let interm_log_probs := log_prob_tensors interm_fluents in
  interm_cat ← tf_concat interm_log_probs;
  interm_log_prob ← tf_reduce_sum interm_cat;
  let next_state_log_probs := log_prob_tensors next_state_fluents in
  next_state_cat ← tf_concat next_state_log_probs;
  next_state_log_prob ← tf_reduce_sum next_state_cat;
  total ← tf_add interm_log_prob next_state_log_prob;
  Ok (tf_expand_dims total).

(** The log-probability that the triple [f] carries for batch row [b],
    for a log_prob tensor of shape [[batch, 1]]. *)
Definition log_prob_at (f : FluentTriple Scalar) (b : nat) : Scalar :=
  let '(_, _, log_prob) := f in nth b (data (tensor log_prob)) zero.

(** The sum, over the fluents of a group, of their log-probabilities for
    batch row [b]. *)
Definition group_log_prob (fluents : list (FluentTriple Scalar)) (b : nat) : Scalar :=
  sum_scalars (map (fun f => log_prob_at f b) fluents).

(** A tensor of dtype [dt] and shape [[batch, 1]]. *)
Definition column_of (dt : DType) (batch_size : nat) (t : Tensor Scalar) : Prop :=
  dtype t = dt /\ shape t = [batch_size; 1] /\ well_shaped t.

(** The log_prob tensor of [f] has dtype [dt] and shape [[batch, 1]]. *)
Definition log_prob_shaped (dt : DType) (batch_size : nat) (f : FluentTriple Scalar) : Prop :=
  let '(_, _, log_prob) := f in column_of dt batch_size (tensor log_prob).

(** A tensor of dtype [dt] and shape [[batch, n]], for some [n]. *)
Definition matrix_of (dt : DType) (batch_size : nat) (t : Tensor Scalar) : Prop :=
  dtype t = dt /\ (exists n, shape t = [batch_size; n]) /\ well_shaped t.

(** The log_prob tensor of [f] has dtype [dt] and shape [[batch, n]]. *)
Definition log_prob_matrix (dt : DType) (batch_size : nat) (f : FluentTriple Scalar) : Prop :=
  let '(_, _, log_prob) := f in matrix_of dt batch_size (tensor log_prob).

(** The sum, left to right, of row [b] of the fluents' log_prob tensors
    laid side by side along the feature axis. *)
Definition group_row_sum (fluents : list (FluentTriple Scalar)) (b : nat) : Scalar :=
  sum_scalars (concat (map (fun t => batch_row t b) (log_prob_tensors fluents))).

(** [MRMCell._tensors]: the fluents' tensors, in order. *)
Definition _tensors (fluents : list (FluentTriple Scalar)) : list (Tensor Scalar) :=
  map (fun '(_, fluent, _) => tensor fluent) fluents.

(** [MRMCell._dtype]: converts the tensor to [tf.float32] if needed. *)
Definition _dtype (t : Tensor Scalar) : Tensor Scalar :=
  if bool_decide (dtype t <> float32) then tf_cast t float32 else t.

(** [MRMCell._output]. *)
Definition _output (fluents : list (FluentTriple Scalar)) : list (Tensor Scalar) :=
  map _dtype (_tensors fluents).

(** *** The transition scope, a Python dict from names to fluents *)

(** [{name: fluent for name, fluent, _ in fluents}]: a later entry
    replaces an earlier one of the same name. *)
Definition dict_of_fluents (fluents : list (FluentTriple Scalar))
  : gmap string (TensorFluent Scalar) :=
  foldl (fun d '(name, fluent, _) => <[name := fluent]> d) ∅ fluents.

(** [d.update(e)]: the entries of [e] replace those of [d]. *)
Definition dict_update (d e : gmap string (TensorFluent Scalar))
  : gmap string (TensorFluent Scalar) :=
  e ∪ d.

End TensorOps.

(** ** The simulation cell, [MRMCell] *)

Section Cell.

Context {Scalar : Type} `{!ScalarOps Scalar}.
(** The state of the world outside the cell: whatever the compiler and
    the policy read and write when they are called (random generators,
    variables, the graph under construction). *)
Context {Ext : Type}.

(** A call into an external collaborator: it may raise, and it may
    change the external state. *)
Definition External (A : Type) : Type := Ext -> result A * Ext.

(** The part of [rddl2tf.compiler.Compiler] that the cell uses.  The
    transition scope is a Python dict, a mutable object that the cell
    shares with the compiler: [compile_probabilistic_cpfs] is given the
    dict itself and may write into it, so beside the fluents it returns
    what the dict holds when the call returns.  ([compile_reward] is given
    the same dict; the cell does not look at it again afterwards.) *)
Record Compiler : Type := mkCompiler {
  state_size : list Shape;
  action_size : list Shape;
  interm_size : list Shape;
  compile_initial_state : nat -> External (list (Tensor Scalar));
  transition_scope :
    list (Tensor Scalar) -> list (Tensor Scalar) ->
    External (gmap string (TensorFluent Scalar));
  compile_probabilistic_cpfs :
    gmap string (TensorFluent Scalar) -> nat ->
    External (list (FluentTriple Scalar) * list (FluentTriple Scalar)
              * gmap string (TensorFluent Scalar));
  compile_reward : gmap string (TensorFluent Scalar) -> External (TensorFluent Scalar)
}.

(** A [DeepReactivePolicy] is called on the state and the step input. *)
Definition DeepReactivePolicy : Type :=
  list (Tensor Scalar) -> Tensor Scalar -> External (list (Tensor Scalar)).

(** The attributes of an [MRMCell] object, set by [__init__]. *)
Record MRMCell : Type := mkMRMCell {
  _compiler : Compiler;
  _policy : DeepReactivePolicy;
  _batch_size : nat
}.

(** [MRMCell.__init__]. *)
Definition __init__ (compiler : Compiler) (policy : DeepReactivePolicy)
    (batch_size : nat) : MRMCell :=
  {| _compiler := compiler; _policy := policy; _batch_size := batch_size |}.

(** What a method of the cell runs in: the cell object itself, whose
    attributes a method could assign, and the external state. *)
Record World : Type := mkWorld {
  self : MRMCell;
  ext : Ext
}.

(** Computations of the methods: they may raise, and they thread the
    world. *)
Definition M (A : Type) : Type := World -> result A * World.

Definition ret {A : Type} (a : A) : M A := fun w => (Ok a, w).

Definition bind {A B : Type} (m : M A) (k : A -> M B) : M B :=
  fun w =>
    match m w with
    | (Ok a, w') => k a w'
    | (Raise e, w') => (Raise e, w')
    end.

(** A pure, fallible operation. *)
Definition lift_result {A : Type} (r : result A) : M A := fun w => (r, w).

(** A call into a collaborator held by the cell. *)
Definition call_external {A : Type} (f : MRMCell -> External A) : M A :=
  fun w =>
    let '(r, e) := f (self w) (ext w) in
    (r, {| self := self w; ext := e |}).

(** Reading an attribute of [self]. *)
Definition attr {A : Type} (f : MRMCell -> A) : M A := fun w => (Ok (f (self w)), w).

End Cell.

Arguments Compiler : clear implicits.
Arguments DeepReactivePolicy : clear implicits.
Arguments MRMCell : clear implicits.
Arguments World : clear implicits.
Arguments External : clear implicits.
Arguments M : clear implicits.

#[global] Instance M_ret {Scalar Ext : Type} : MRet (M Scalar Ext) := @ret Scalar Ext.
#[global] Instance M_bind {Scalar Ext : Type} : MBind (M Scalar Ext) :=
  fun A B k m => bind m k.

Section CellMethods.

Context {Scalar : Type} `{!ScalarOps Scalar} {Ext : Type}.

(** [MRMCell.state_size], [MRMCell.action_size] and
    [MRMCell.interm_size]: the sizes that the compiler gives.  (The
    projections of [Compiler] have the names of the source.) *)
Definition cell_state_size (c : MRMCell Scalar Ext) : list Shape :=
  state_size (_compiler c).
Definition cell_action_size (c : MRMCell Scalar Ext) : list Shape :=
  action_size (_compiler c).
Definition cell_interm_size (c : MRMCell Scalar Ext) : list Shape :=
  interm_size (_compiler c).

(** [MRMCell.output_size]. *)
Definition output_size (c : MRMCell Scalar Ext)
  : list Shape * list Shape * list Shape * nat * nat :=
  (cell_state_size c, cell_action_size c, cell_interm_size c, 1, 1).

(** [MRMCell.initial_state]. *)
Definition initial_state : M Scalar Ext (list (Tensor Scalar)) :=
  call_external (fun c => compile_initial_state (_compiler c) (_batch_size c)).

(** [MRMCell.__call__].  The local variable [transition_scope] of the
    source names one dict throughout: after the sampling, [scope] is that
    dict as [compile_probabilistic_cpfs] left it, and the update is made on
    it. *)
Definition __call__ (input : Tensor Scalar) (state : list (Tensor Scalar))
  : M Scalar Ext (CellOutput Scalar * list (Tensor Scalar)) :=
  '(timestep, stop_flag) ← lift_result (tf_split_1_1 input);
  (* action *)
  action ← call_external (fun c => _policy c state input);
  (* next state *)
  scope ← call_external (fun c => transition_scope (_compiler c) state action);
  '(interm_fluents, next_state_fluents, scope) ←
     call_external (fun c =>
       compile_probabilistic_cpfs (_compiler c) scope (_batch_size c));
  (* log_probs *)
  log_prob ← lift_result (_log_prob interm_fluents next_state_fluents);
  (* reward *)
  let scope := dict_update scope (dict_of_fluents next_state_fluents) in
  reward ← call_external (fun c => compile_reward (_compiler c) scope);
  let reward := tensor reward in
  (* outputs *)
  let interm_state := _output interm_fluents in
  let next_state := _output next_state_fluents in
  let output := (next_state, action, interm_state, reward, log_prob) in
  ret (output, next_state).

End CellMethods.

(** ** The rollout driver, [MarkovRecurrentModel]

    The class is imported by the tests from [tfmdp.train.mrm], but its
    code is not part of the sources: what follows is written from the
    specification of the rollout driver. *)

Inductive ReparameterizationType : Type :=
  | FULLY_REPARAMETERIZED
  | NOT_REPARAMETERIZED.

(** Modelled from the spec: the countdown of [MarkovRecurrentModel.timesteps]
    (the method is missing from the sources), "a strictly decreasing
    countdown sequence horizon-1, horizon-2, ..., 0". *)
Fixpoint countdown (horizon : nat) : list Z :=
  match horizon with
  | 0 => []
  | S h => Z.of_nat h :: countdown h
  end.

(** Modelled from the spec: the value of the stop flag of
    [MarkovRecurrentModel.stop_flags] (the method is missing from the
    sources), "all zeros when reparam_type == FULLY_REPARAMETERIZED, all
    ones when NOT_REPARAMETERIZED". *)
Definition stop_flag_value (reparam_type : ReparameterizationType) : Z :=
  match reparam_type with
  | FULLY_REPARAMETERIZED => 0
  | NOT_REPARAMETERIZED => 1
  end.

Section RolloutDriver.

Context {Scalar : Type} `{!ScalarOps Scalar}.

(** Entry [[b, t, 0]] of a tensor of shape [[batch, horizon, 1]]. *)
Definition entry (x : Tensor Scalar) (b t : nat) : option Scalar :=
  batch_row x b !! t.

(** Modelled from the spec: [MarkovRecurrentModel.timesteps] (missing
    from the sources), "timesteps(horizon) -> Tensor[batch, horizon, 1]:
    for every batch row, a strictly decreasing countdown sequence". *)
Definition timesteps (batch_size horizon : nat) : Tensor Scalar :=
  {| dtype := float32;
     shape := [batch_size; horizon; 1];
     data := concat (repeat (map of_Z (countdown horizon)) batch_size) |}.

(** Modelled from the spec: [MarkovRecurrentModel.stop_flags] (missing
    from the sources), "a constant tensor for the whole rollout",
    "broadcast identically to every step and batch row". *)
Definition stop_flags (batch_size horizon : nat)
    (reparam_type : ReparameterizationType) : Tensor Scalar :=
  {| dtype := float32;
     shape := [batch_size; horizon; 1];
     data := repeat (of_Z (stop_flag_value reparam_type)) (batch_size * horizon) |}.

(** The sum of the rewards from a step on, the reward of the step added
    to the sum of those after it. *)
Fixpoint suffix_sum (l : list Scalar) : Scalar :=
  match l with
  | [] => zero
  | x :: xs =>
      match xs with
      | [] => x
      | _ :: _ => add x (suffix_sum xs)
      end
  end.

(** Modelled from the spec: [MarkovRecurrentModel.reward_to_go] (missing
    from the sources), "for each batch row and time index t, the suffix
    sum sum_{t' >= t} rewards[t']. Same shape and dtype as the input
    reward tensor". *)
Definition reward_to_go (r : Tensor Scalar) : Tensor Scalar :=
  {| dtype := dtype r;
     shape := shape r;
     data := concat (map (fun b =>
                       map (fun t => suffix_sum (drop t (batch_row r b)))
                           (seq 0 (axis1 (shape r))))
                     (seq 0 (hd 0 (shape r)))) |}.

(** The total return of batch row [b]: the sum of all its rewards. *)
Definition total_return (r : Tensor Scalar) (b : nat) : Scalar :=
  suffix_sum (batch_row r b).

End RolloutDriver.

(** ** The planner module, [tfmdp/train/planner.py]

    A program reaches [PolicyOptimizationPlanner.from_json] by importing
    the module, which runs the statements of its body in order, and by
    calling the method on the class that the last of them binds. *)

Module planner.

Local Open Scope string_scope.

Unset Elimination Schemes.

(** The objects that the module body and a call of the method handle. *)
Inductive Object : Type :=
  | ModuleObject (name : string)
  | Imported (module name : string)
  | Builtin (name : string)
  | ListObject (items : list Object)
  | GenericAlias (origin : Object) (params : list Object)
  | ClassObject (name : string)
  | InstanceOf (class : Object)
  | StringObject (value : string).

Inductive Expression : Type :=
  | Name (id : string)
  | ListDisplay (items : list Expression)
  | Subscript (value : Expression) (params : list Expression).

Set Elimination Schemes.

(** The statements of the module body: [import module] (which binds
    [name], the top-level package or the [as] name),
    [from module import names], an assignment, and a class statement. *)
Inductive Statement : Type :=
  | Import (module name : string)
  | FromImport (module : string) (names : list string)
  | Assign (target : string) (value : Expression)
  | ClassDef (name : string).

(** The body of [tfmdp/train/planner.py], statement by statement.  A
    subscript with a trailing comma, [Callable[[],]], takes the one-element
    tuple [([],)]. *)
Definition module_body : list Statement :=
  [ Import "rddl2tf.compiler" "rddl2tf";
    FromImport "tfmdp.policy.drp" ["DeepReactivePolicy"];
    FromImport "tfmdp.model.mrm" ["MarkovRecurrentModel"];
    FromImport "tfmdp.train.losses" ["PolicyLoss"];
    FromImport "tfmdp.train.optimizers" ["Optimizer"];
    FromImport "tfmdp.train.callbacks" ["Callback"];
    Import "abc" "abc";
    Import "tensorflow" "tf";
    FromImport "typing" ["Callable"; "Dict"; "List"; "Optional"; "Sequence"];
    Assign "Callbacks"
      (Subscript (Name "Dict")
         [Name "str"; Subscript (Name "Sequence") [Name "Callback"]]);
    Assign "Callback" (Subscript (Name "Callable") [ListDisplay []]);
    ClassDef "PolicyOptimizationPlanner" ].

(** The names that a statement binds. *)
Definition binds (s : Statement) : list string :=
  match s with
  | Import _ name => [name]
  | FromImport _ names => names
  | Assign target _ => [target]
  | ClassDef name => [name]
  end.

(** The names that every module has before its body runs. *)
Definition module_attributes : list string :=
  [ "__name__"; "__doc__"; "__package__"; "__loader__"; "__spec__";
    "__file__"; "__cached__"; "__builtins__" ].

(** Every name that is, or would be, global in the module. *)
Definition module_globals : list string :=
  module_attributes ++ concat (map binds module_body).

(** The names of Python 3's [builtins] module. *)
Definition builtins : list string :=
  [ "abs"; "all"; "any"; "ascii"; "bin"; "bool"; "breakpoint"; "bytearray";
    "bytes"; "callable"; "chr"; "classmethod"; "compile"; "complex";
    "copyright"; "credits"; "delattr"; "dict"; "dir"; "divmod"; "enumerate";
    "eval"; "exec"; "exit"; "filter"; "float"; "format"; "frozenset";
    "getattr"; "globals"; "hasattr"; "hash"; "help"; "hex"; "id"; "input";
    "int"; "isinstance"; "issubclass"; "iter"; "len"; "license"; "list";
    "locals"; "map"; "max"; "memoryview"; "min"; "next"; "object"; "oct";
    "open"; "ord"; "pow"; "print"; "property"; "quit"; "range"; "repr";
    "reversed"; "round"; "set"; "setattr"; "slice"; "sorted";
    "staticmethod"; "str"; "sum"; "super"; "tuple"; "type"; "vars"; "zip";
    "__import__"; "__build_class__"; "__debug__"; "__doc__"; "__loader__";
    "__name__"; "__package__"; "__spec__";
    "None"; "True"; "False"; "Ellipsis"; "NotImplemented";
    "BaseException"; "Exception"; "ArithmeticError"; "AssertionError";
    "AttributeError"; "BlockingIOError"; "BrokenPipeError"; "BufferError";
    "BytesWarning"; "ChildProcessError"; "ConnectionAbortedError";
    "ConnectionError"; "ConnectionRefusedError"; "ConnectionResetError";
    "DeprecationWarning"; "EOFError"; "EnvironmentError";
    "FileExistsError"; "FileNotFoundError"; "FloatingPointError";
    "FutureWarning"; "GeneratorExit"; "IOError"; "ImportError";
    "ImportWarning"; "IndentationError"; "IndexError"; "InterruptedError";
    "IsADirectoryError"; "KeyError"; "KeyboardInterrupt"; "LookupError";
    "MemoryError"; "ModuleNotFoundError"; "NameError";
    "NotADirectoryError"; "NotImplementedError"; "OSError";
    "OverflowError"; "PendingDeprecationWarning"; "PermissionError";
    "ProcessLookupError"; "RecursionError"; "ReferenceError";
    "ResourceWarning"; "RuntimeError"; "RuntimeWarning";
    "StopAsyncIteration"; "StopIteration"; "SyntaxError"; "SyntaxWarning";
    "SystemError"; "SystemExit"; "TabError"; "TimeoutError"; "TypeError";
    "UnboundLocalError"; "UnicodeDecodeError"; "UnicodeEncodeError";
    "UnicodeError"; "UnicodeTranslateError"; "UnicodeWarning";
    "UserWarning"; "ValueError"; "Warning"; "ZeroDivisionError" ].

Definition Namespace : Type := gmap string Object.

Definition initial_namespace : Namespace :=
  foldl (fun ns name => <[name := Builtin name]> ns) ∅ module_attributes.

(** Loading a name that is not local to a function: the globals of the
    module, then the built-ins, else [NameError]. *)
Definition load_global (ns : Namespace) (name : string) : result Object :=
  match ns !! name with
  | Some v => Ok v
  | None =>
      if bool_decide (name ∈ builtins) then Ok (Builtin name)
      else Raise (NameError name)
  end.

(** The number of parameters that the generic types of [typing] used by
    the module take; [Callable] takes two, the argument list and the
    result. *)
Definition typing_parameters (name : string) : option nat :=
  if bool_decide (name = "Callable") then Some 2
  else if bool_decide (name = "Dict") then Some 2
  else if bool_decide (name ∈ ["List"; "Optional"; "Sequence"]) then Some 1
  else None.

(** [value[params]]: a generic type of [typing] with the right number of
    parameters gives an alias, anything else is a [TypeError]. *)
Definition subscript (value : Object) (params : list Object) : result Object :=
  match value with
  | Imported module name =>
      if bool_decide (module = "typing") then
        match typing_parameters name with
        | Some n =>
            if bool_decide (length params = n) then Ok (GenericAlias value params)
            else Raise TypeError
        | None => Raise TypeError
        end
      else Raise TypeError
  | _ => Raise TypeError
  end.

Fixpoint eval (ns : Namespace) (e : Expression) : result Object :=
  let eval_all :=
    fix eval_all (es : list Expression) : result (list Object) :=
      match es with
      | [] => Ok []
      | e :: es => v ← eval ns e; vs ← eval_all es; Ok (v :: vs)
      end in
  match e with
  | Name id => load_global ns id
  | ListDisplay items => vs ← eval_all items; Ok (ListObject vs)
  | Subscript value params =>
      v ← eval ns value; ps ← eval_all params; subscript v ps
  end.

Section Importing.

(** Whether a module that this one imports can itself be imported. *)
Variable importable : string -> bool.

Definition exec (ns : Namespace) (s : Statement) : result Namespace :=
  match s with
  | Import module name =>
      if importable module then Ok (<[name := ModuleObject module]> ns)
      else Raise (ImportError module)
  | FromImport module names =>
      if importable module
      then Ok (foldl (fun ns name => <[name := Imported module name]> ns) ns names)
      else Raise (ImportError module)
  | Assign target value => v ← eval ns value; Ok (<[target := v]> ns)
  | ClassDef name => Ok (<[name := ClassObject name]> ns)
  end.

Fixpoint exec_all (ns : Namespace) (body : list Statement) : result Namespace :=
  match body with
  | [] => Ok ns
  | s :: body => ns ← exec ns s; exec_all ns body
  end.

(** [import tfmdp.train.planner]: the namespace of the module, once
    its body has run to the end. *)
Definition import_module : result Namespace :=
  exec_all initial_namespace module_body.

(** What the interpreter does with objects. *)
(** [obj.name]. *)
Variable getattr : Object -> string -> result Object.
(** [f(args)]. *)
Variable call : Object -> list Object -> result Object.

(** [PolicyOptimizationPlanner.from_json], run with the globals [ns].
    Its local names are [cls], [compiler], [json_config] and [config];
    [json] and [json_string] are not, and are loaded as globals. *)
Definition from_json (ns : Namespace) (cls compiler json_config : Object)
  : result Object :=
  json ← load_global ns "json";
  loads ← getattr json "loads";
  json_string ← load_global ns "json_string";
  config ← call loads [json_string];
  call cls [compiler; config].

(** A program that imports the module and calls
    [PolicyOptimizationPlanner.from_json(compiler, json_config)]. *)
Definition call_from_json (compiler json_config : Object) : result Object :=
  ns ← import_module;
  match ns !! "PolicyOptimizationPlanner" with
  | Some cls => from_json ns cls compiler json_config
  | None => Raise (AttributeError "PolicyOptimizationPlanner")
  end.

End Importing.

End planner.

(** ** A small instance: integers as scalars, a counter as the world *)

Module demo.

Local Open Scope Z_scope.
Local Open Scope string_scope.

#[export] Instance Z_ops : ScalarOps Z :=
  {| add := Z.add; zero := 0; cast_scalar := fun _ _ x => x; of_Z := fun z => z |}.

Definition fluent (dt : DType) (s : Shape) (d : list Z) : TensorFluent Z :=
  mkFluent (mkTensor dt s d) [] true.

(** A policy that always moves by [(1, -1)]. *)
Definition policy : DeepReactivePolicy Z nat :=
  fun state input e =>
    (Ok [mkTensor float32 (hd 0%nat (shape input) :: [2%nat])
           (concat (repeat [1; -1] (hd 0%nat (shape input))))], e).

(** A policy whose action tensor holds integers. *)
Definition int_policy : DeepReactivePolicy Z nat :=
  fun state input e =>
    (Ok [mkTensor int32 (hd 0%nat (shape input) :: [2%nat])
           (concat (repeat [1; -1] (hd 0%nat (shape input))))], e).

(** A compiler for one state variable [location] of shape [(2,)], one
    action [move] and two intermediate fluents.  The counter stands for
    the random generator: each sampling uses it as noise and advances
    it.  Sampling writes the intermediate fluents into the scope that it
    is given. *)
Definition compiler : Compiler Z nat :=
  {| state_size := [[2%nat]];
     action_size := [[2%nat]];
     interm_size := [[1%nat]; [1%nat]];
     compile_initial_state := fun b e =>
       (Ok [mkTensor float32 [b; 2%nat] (repeat 0 (b * 2))], e);
     transition_scope := fun state action e =>
       match state, action with
       | [s], [a] =>
           (Ok (<["location" := mkFluent s [] true]>
                  (<["move" := mkFluent a [] true]> ∅)), e)
       | _, _ => (Raise ValueError, e)
       end;
     compile_probabilistic_cpfs := fun scope b e =>
       match scope !! "location", scope !! "move" with
       | Some l, Some m =>
           let noise := Z.of_nat e in
           let next :=
             zip_with (fun x y => x + y + noise) (data (tensor l)) (data (tensor m)) in
           (Ok ([("distance", fluent float32 [b; 1%nat] (repeat noise b),
                              fluent float32 [b; 1%nat] (repeat (-1) b));
                 ("slip", fluent bool_ [b; 1%nat] (repeat 1 b),
                          fluent float32 [b; 1%nat] (repeat (-2) b))],
                [("location'", fluent int32 [b; 2%nat] next,
                               fluent float32 [b; 1%nat] (repeat (-3 - noise) b))],
                <["slip" := fluent bool_ [b; 1%nat] (repeat 1 b)]>
                  (<["distance" := fluent float32 [b; 1%nat] (repeat noise b)]> scope)),
            S e)
       | _, _ => (Raise KeyError, e)
       end;
     compile_reward := fun scope e =>
       match scope !! "location'" with
       | Some l =>
           let b := hd 0%nat (shape (tensor l)) in
           (Ok (fluent float32 [b; 1%nat]
                  (map (fun i => - sum_scalars (batch_row (tensor l) i)) (seq 0 b))), e)
       | None => (Raise KeyError, e)
       end |}.

Definition cell : MRMCell Z nat := __init__ compiler policy 2.
Definition int_cell : MRMCell Z nat := __init__ compiler int_policy 2.

(** The step input [(timestep, stop_flag) = (40, 0)] for two batch rows. *)
Definition input : Tensor Z := mkTensor float32 [2%nat; 2%nat] [40; 0; 40; 0].

Definition state : list (Tensor Z) := [mkTensor float32 [2%nat; 2%nat] [0; 0; 5; 7]].

(** Rewards of two batch rows over a horizon of three steps. *)
Definition some_rewards : Tensor Z :=
  mkTensor float32 [2%nat; 3%nat; 1%nat] [1; 2; 3; 10; 20; 30].

(** The world in which the counter stands at 7. *)
Definition world : World Z nat := mkWorld cell 7%nat.
Definition int_world : World Z nat := mkWorld int_cell 7%nat.

(** The fluents that [compiler] samples from [state], the action of
    [policy] and the counter at 7. *)
Definition interm_fluents : list (FluentTriple Z) :=
  [("distance", fluent float32 [2%nat; 1%nat] [7; 7],
                fluent float32 [2%nat; 1%nat] [-1; -1]);
   ("slip", fluent bool_ [2%nat; 1%nat] [1; 1],
            fluent float32 [2%nat; 1%nat] [-2; -2])].
Definition next_state_fluents : list (FluentTriple Z) :=
  [("location'", fluent int32 [2%nat; 2%nat] [8; 6; 13; 13],
                 fluent float32 [2%nat; 1%nat] [-10; -10])].

(** What a step of [cell] on [input] and [state] gives there. *)
Definition next_state : list (Tensor Z) :=
  [mkTensor float32 [2%nat; 2%nat] [8; 6; 13; 13]].
Definition action : list (Tensor Z) :=
  [mkTensor float32 [2%nat; 2%nat] [1; -1; 1; -1]].
Definition int_action : list (Tensor Z) :=
  [mkTensor int32 [2%nat; 2%nat] [1; -1; 1; -1]].
Definition interm_state : list (Tensor Z) :=
  [mkTensor float32 [2%nat; 1%nat] [7; 7]; mkTensor float32 [2%nat; 1%nat] [1; 1]].
Definition reward : Tensor Z := mkTensor float32 [2%nat; 1%nat] [-14; -26].
Definition log_prob : Tensor Z := mkTensor float32 [2%nat; 1%nat] [-13; -13].
Definition output : CellOutput Z :=
  (next_state, action, interm_state, reward, log_prob).
Definition int_output : CellOutput Z :=
  (next_state, int_action, interm_state, reward, log_prob).

(** A step input with three columns instead of two. *)
Definition wide_input : Tensor Z :=
  mkTensor float32 [2%nat; 3%nat] [40; 0; 0; 40; 0; 0].

(** The same step at another time: timestep 39, stop flag 1. *)
Definition later_input : Tensor Z := mkTensor float32 [2%nat; 2%nat] [39; 1; 39; 1].

(** A policy that raises, after drawing from the random generator. *)
Definition failing_policy : DeepReactivePolicy Z nat :=
  fun state input e => (Raise TypeError, S e).

Definition failing_world : World Z nat :=
  mkWorld (__init__ compiler failing_policy 2) 7%nat.

(** [compiler] for a model that has no intermediate fluents. *)
Definition bare_compiler : Compiler Z nat :=
  {| state_size := state_size compiler;
     action_size := action_size compiler;
     interm_size := [];
     compile_initial_state := compile_initial_state compiler;
     transition_scope := transition_scope compiler;
     compile_probabilistic_cpfs := fun scope b e =>
       match compile_probabilistic_cpfs compiler scope b e with
       | (Ok (_, next, _), e') => (Ok ([], next, scope), e')
       | (Raise x, e') => (Raise x, e')
       end;
     compile_reward := compile_reward compiler |}.

Definition bare_world : World Z nat := mkWorld (__init__ bare_compiler policy 2) 7%nat.

(** [compiler] with, for [location'], a log_prob of shape [(batch, 2)]:
    one value per element of the fluent. *)
Definition wide_compiler : Compiler Z nat :=
  {| state_size := state_size compiler;
     action_size := action_size compiler;
     interm_size := interm_size compiler;
     compile_initial_state := compile_initial_state compiler;
     transition_scope := transition_scope compiler;
     compile_probabilistic_cpfs := fun scope b e =>
       match compile_probabilistic_cpfs compiler scope b e with
       | (Ok (interm, [(name, next, _)], sampled), e') =>
           (Ok (interm,
                [(name, next, fluent float32 [b; 2%nat] (repeat (-3 - Z.of_nat e) (b * 2)))],
                sampled), e')
       | (Ok _, e') => (Raise ValueError, e')
       | (Raise x, e') => (Raise x, e')
       end;
     compile_reward := compile_reward compiler |}.

Definition wide_world : World Z nat := mkWorld (__init__ wide_compiler policy 2) 7%nat.

Definition wide_next_state_fluents : list (FluentTriple Z) :=
  [("location'", fluent int32 [2%nat; 2%nat] [8; 6; 13; 13],
                 fluent float32 [2%nat; 2%nat] [-10; -10; -10; -10])].

Definition wide_output : CellOutput Z :=
  (next_state, action, interm_state, reward, mkTensor float32 [2%nat; 1%nat] [-23; -23]).

(** The scope that [compiler] builds from [state] and [action], and what
    it holds after the sampling. *)
Definition scope : gmap string (TensorFluent Z) :=
  <["location" := mkFluent (mkTensor float32 [2%nat; 2%nat] [0; 0; 5; 7]) [] true]>
    (<["move" := mkFluent (mkTensor float32 [2%nat; 2%nat] [1; -1; 1; -1]) [] true]> ∅).
Definition sampled_scope : gmap string (TensorFluent Z) :=
  <["slip" := fluent bool_ [2%nat; 1%nat] [1; 1]]>
    (<["distance" := fluent float32 [2%nat; 1%nat] [7; 7]]> scope).

End demo.


(** * Properties *)

(** ** Row-major buffers *)

Section Buffers.

Context {A : Type}.
Implicit Types (d : list A) (p b i : nat).

Lemma slice_0 p d : slice p 0 d = take p d.
Proof. reflexivity. Qed.

Lemma slice_S p i d : slice p (S i) d = slice p i (drop p d).
Proof. unfold slice. rewrite drop_drop. reflexivity. Qed.

Lemma map_seq_S {B : Type} (f : nat -> B) b :
  map f (seq 0 (S b)) = f 0 :: map (fun i => f (S i)) (seq 0 b).
Proof. simpl. rewrite <- seq_shift, map_map. reflexivity. Qed.

(** Cutting a buffer into its [b] rows and gluing them back. *)
Lemma concat_slices p b : forall d,
  length d = b * p -> concat (map (fun i => slice p i d) (seq 0 b)) = d.
Proof.
  induction b as [|b IH]; intros d Hlen.
  - destruct d; [reflexivity | discriminate].
  - rewrite map_seq_S. simpl.
    erewrite map_ext; [| intros i; apply slice_S].
    rewrite IH; [apply take_drop |].
    rewrite length_drop. simpl in Hlen. lia.
Qed.

(** Row [i] of a buffer glued from [b] rows of width [p]. *)
Lemma slice_concat_rows p b : forall (row : nat -> list A) i,
  (forall j, j < b -> length (row j) = p) ->
  i < b ->
  slice p i (concat (map row (seq 0 b))) = row i.
Proof.
  induction b as [|b IH]; intros row i Hrow Hi; [lia |].
  rewrite map_seq_S. simpl.
  destruct i as [|i].
  - rewrite slice_0, take_app_length'; [reflexivity |].
    symmetry. apply Hrow. lia.
  - rewrite slice_S, drop_app_length' by (symmetry; apply Hrow; lia).
    apply (IH (fun j => row (S j))); [| lia].
    intros j Hj. apply Hrow. lia.
Qed.

Lemma length_concat_rows p b : forall (row : nat -> list A),
  (forall j, j < b -> length (row j) = p) ->
  length (concat (map row (seq 0 b))) = b * p.
Proof.
  induction b as [|b IH]; intros row Hrow; [reflexivity |].
  rewrite map_seq_S. simpl.
  rewrite length_app, (IH (fun j => row (S j))).
  - rewrite Hrow; lia.
  - intros j Hj. apply Hrow. lia.
Qed.

(** A row of width 1 holds the element at its index. *)
Lemma slice_1 i d x : d !! i = Some x -> slice 1 i d = [x].
Proof.
  intros Hx. unfold slice. rewrite Nat.mul_1_r.
  rewrite (drop_S _ _ _ Hx). reflexivity.
Qed.

Lemma concat_singletons (f : nat -> A) (l : list nat) :
  concat (map (fun i => [f i]) l) = map f l.
Proof. induction l as [|x l IH]; simpl; congruence. Qed.

Lemma map_seq_ext {B : Type} (f g : nat -> B) b :
  (forall i, i < b -> f i = g i) -> map f (seq 0 b) = map g (seq 0 b).
Proof.
  intros Hfg. apply map_ext_in. intros i Hi. apply in_seq in Hi. apply Hfg. lia.
Qed.

End Buffers.

(** ** The step log-probability *)

Section LogProb.

Context {Scalar : Type} `{!ScalarOps Scalar}.
Implicit Types (t u : Tensor Scalar) (f : FluentTriple Scalar).

Lemma lookup_nth {A : Type} (l : list A) i (d : A) :
  i < length l -> l !! i = Some (nth i l d).
Proof.
  intros Hi. destruct (lookup_lt_is_Some_2 l i Hi) as [x Hx].
  rewrite Hx. f_equal. symmetry. apply nth_lookup_Some. exact Hx.
Qed.

(** A tensor of shape [[batch, 1]] has rows of one element. *)
Lemma batch_row_column t batch i :
  shape t = [batch; 1] -> well_shaped t -> i < batch ->
  batch_row t i = [nth i (data t) zero].
Proof.
  unfold well_shaped, batch_row. intros Hs Hw Hi. rewrite Hs in *. simpl in *.
  apply slice_1. apply lookup_nth. lia.
Qed.

Lemma concat_column_rows dt batch (values : list (Tensor Scalar)) i :
  Forall (column_of dt batch) values -> i < batch ->
  concat (map (fun v => batch_row v i) values)
  = map (fun v => nth i (data v) zero) values.
Proof.
  intros Hall Hi. induction Hall as [|v vs (_ & Hsv & Hwv) _ IH]; [reflexivity |].
  simpl. rewrite IH, (batch_row_column v batch i); auto.
Qed.

Lemma axis1_columns dt batch (values : list (Tensor Scalar)) :
  Forall (column_of dt batch) values ->
  foldr Nat.add 0 (map (fun v => axis1 (shape v)) values) = length values.
Proof.
  induction 1 as [|v vs (_ & Hsv & _) _ IH]; [reflexivity |].
  simpl. rewrite IH, Hsv. reflexivity.
Qed.

(** Concatenating [n] columns along the feature axis gives a tensor of
    shape [[batch, n]] whose row [i] lists their elements at [i]. *)
Lemma tf_concat_columns dt batch (values : list (Tensor Scalar)) :
  values <> [] ->
  Forall (column_of dt batch) values ->
  exists c,
    tf_concat values = Ok c /\
    dtype c = dt /\
    shape c = [batch; length values] /\
    forall i, i < batch ->
      batch_row c i = map (fun u => nth i (data u) zero) values.
Proof.
  intros Hne Hall.
  destruct values as [|t [|u rest]]; [congruence | |].
  - (* one tensor: returned as it is *)
    apply Forall_cons in Hall as [(Hd & Hs & Hw) _].
    exists t. repeat split; try assumption.
    intros i Hi. simpl. f_equal. eapply batch_row_column; eassumption.
  - pose proof (fun i => concat_column_rows dt batch _ i Hall) as Hrow.
    pose proof (axis1_columns dt batch _ Hall) as Hsum.
    assert (Hdtypes : forallb (fun v => bool_decide (dtype v = dtype t)) (t :: u :: rest)
                      = true).
    { apply forallb_forall. intros v Hv.
      pose proof Hall as Hv'.
      apply Forall_forall with (x := v) in Hv'; [| apply list_elem_of_In; exact Hv].
      destruct Hv' as (Hd' & _).
      apply Forall_cons in Hall as [(Hd & _) _].
      rewrite Hd, Hd'. apply bool_decide_eq_true_2. reflexivity. }
    assert (Hcompat : forallb (concat_compatible t) (t :: u :: rest) = true).
    { apply forallb_forall. intros v Hv.
      pose proof Hall as Hv'.
      apply Forall_forall with (x := v) in Hv'; [| apply list_elem_of_In; exact Hv].
      destruct Hv' as (_ & Hs' & _).
      apply Forall_cons in Hall as [(_ & Hs & _) _].
      unfold concat_compatible. rewrite Hs, Hs'.
      rewrite !bool_decide_eq_true_2; reflexivity. }
    apply Forall_cons in Hall as [(Hd & Hs & Hw) _].
    eexists. split.
    { unfold tf_concat. rewrite Hdtypes, Hcompat. reflexivity. }
    cbn [dtype shape data]. rewrite Hs, Hsum. cbn [hd tail].
    repeat split; [assumption |].
    intros i Hi. unfold batch_row at 1. cbn [shape data tail size_of foldr].
    rewrite Nat.mul_1_r.
    rewrite slice_concat_rows; [apply Hrow; assumption | | assumption].
    intros j Hj. rewrite Hrow by assumption. apply length_map.
Qed.

Lemma unit_slices (row : list Scalar) : forall n,
  length row = n ->
  map (fun j => slice 1 j row) (seq 0 n) = map (fun x => [x]) row.
Proof.
  induction row as [|x row IH]; intros n Hn; subst n; [reflexivity |].
  cbn [length]. rewrite map_seq_S. simpl. f_equal.
  erewrite map_ext; [| intros j; apply slice_S].
  apply IH. reflexivity.
Qed.

Lemma foldl_unit_pieces (xs : list Scalar) : forall x,
  foldl (zip_with add) [x] (map (fun y => [y]) xs) = [foldl add x xs].
Proof. induction xs as [|y xs IH]; intros x; simpl; [reflexivity | apply IH]. Qed.

(** Summing a row piece by piece, for pieces of one element. *)
Lemma sum_unit_pieces (row : list Scalar) n :
  length row = n ->
  sum_pieces 1 (map (fun j => slice 1 j row) (seq 0 n)) = [sum_scalars row].
Proof.
  intros Hn. rewrite (unit_slices row n Hn).
  destruct row as [|x xs]; [reflexivity |]. simpl. apply foldl_unit_pieces.
Qed.

(** Reducing a tensor of shape [[batch, n]] along the feature axis. *)
Lemma tf_reduce_sum_rows c dt batch n (row : nat -> list Scalar) :
  dt <> bool_ ->
  dtype c = dt ->
  shape c = [batch; n] ->
  (forall i, i < batch -> batch_row c i = row i) ->
  (forall i, i < batch -> length (row i) = n) ->
  tf_reduce_sum c
  = Ok {| dtype := dt; shape := [batch];
          data := map (fun i => sum_scalars (row i)) (seq 0 batch) |}.
Proof.
  intros Hdt Hd Hs Hrow Hlen. unfold tf_reduce_sum. rewrite Hd, Hs.
  assert (Hdata :
    concat (map (fun i => sum_pieces (size_of [])
                            (map (fun j => slice (size_of []) j (batch_row c i)) (seq 0 n)))
                (seq 0 batch))
    = map (fun i => sum_scalars (row i)) (seq 0 batch)).
  { rewrite <- (concat_singletons (fun i => sum_scalars (row i))).
    f_equal. apply map_seq_ext. intros i Hi.
    rewrite (Hrow i Hi). apply sum_unit_pieces, Hlen, Hi. }
  destruct dt; try congruence; cbn zeta; rewrite Hdata; reflexivity.
Qed.

Lemma broadcast_shape_vector b : broadcast_shape [b] [b] = Some [b].
Proof.
  unfold broadcast_shape, pad_shape. simpl. rewrite Nat.eqb_refl. reflexivity.
Qed.

(** Two vectors of the same length are added element by element. *)
Lemma tf_add_vectors dt b (dx dy : list Scalar) :
  length dx = b -> length dy = b ->
  tf_add {| dtype := dt; shape := [b]; data := dx |}
         {| dtype := dt; shape := [b]; data := dy |}
  = Ok {| dtype := dt; shape := [b]; data := zip_with add dx dy |}.
Proof.
  intros Hx Hy. unfold tf_add. cbn [dtype shape data].
  rewrite bool_decide_eq_true_2 by reflexivity.
  rewrite broadcast_shape_vector. unfold pad_shape. cbn [length Nat.sub repeat app].
  cbn [broadcast_to size_of foldr]. rewrite Nat.eqb_refl.
  rewrite !concat_slices by lia. reflexivity.
Qed.

Lemma zip_with_map_seq (f g : nat -> Scalar) (l : list nat) :
  zip_with add (map f l) (map g l) = map (fun i => add (f i) (g i)) l.
Proof. induction l as [|i l IH]; simpl; congruence. Qed.

Lemma log_prob_columns dt batch (fluents : list (FluentTriple Scalar)) :
  Forall (log_prob_shaped dt batch) fluents ->
  Forall (column_of dt batch) (log_prob_tensors fluents).
Proof.
  induction 1 as [|[[name fluent] log_prob] fs Hf _ IH]; simpl; constructor; assumption.
Qed.

(** One group of fluents: concatenation, then reduction, gives for each
    batch row the sum of the fluents' log-probabilities. *)
Lemma group_reduced dt batch (fluents : list (FluentTriple Scalar)) :
  dt <> bool_ ->
  fluents <> [] ->
  Forall (log_prob_shaped dt batch) fluents ->
  tf_concat (log_prob_tensors fluents) ≫= tf_reduce_sum
  = Ok {| dtype := dt; shape := [batch];
          data := map (group_log_prob fluents) (seq 0 batch) |}.
Proof.
  intros Hdt Hne Hall. apply log_prob_columns in Hall.
  destruct (tf_concat_columns dt batch (log_prob_tensors fluents)) as (c & Hc & Hd & Hs & Hrow);
    [intros E; apply map_eq_nil in E; contradiction | assumption |].
  rewrite Hc. cbn. unfold log_prob_tensors in Hs, Hrow. rewrite length_map in Hs.
  rewrite (tf_reduce_sum_rows c dt batch (length fluents) _ Hdt Hd Hs Hrow).
  - do 2 f_equal. apply map_seq_ext. intros i _. unfold group_log_prob.
    rewrite map_map. f_equal. apply map_ext. intros [[name fluent] log_prob]. reflexivity.
  - intros i _. rewrite !length_map. reflexivity.
Qed.

(** With every intermediate and next-state fluent carrying a log_prob
    tensor of shape [[batch, 1]], what [MRMCell._log_prob] returns has shape
    [[batch, 1]] and holds, for each batch row, the sum of the intermediate
    fluents' log-probabilities plus the sum of the next-state fluents'
    log-probabilities. *)
Lemma log_prob_is_sum_of_groups dt batch
    (interm_fluents next_state_fluents : list (FluentTriple Scalar)) :
  dt <> bool_ ->
  interm_fluents <> [] ->
  next_state_fluents <> [] ->
  Forall (log_prob_shaped dt batch) interm_fluents ->
  Forall (log_prob_shaped dt batch) next_state_fluents ->
  _log_prob interm_fluents next_state_fluents
  = Ok {| dtype := dt;
          shape := [batch; 1];
          data := map (fun b => add (group_log_prob interm_fluents b)
                                    (group_log_prob next_state_fluents b))
                      (seq 0 batch) |}.
Proof.
  intros Hdt Hi Hn Hai Han.
  pose proof (group_reduced dt batch interm_fluents Hdt Hi Hai) as Ei.
  pose proof (group_reduced dt batch next_state_fluents Hdt Hn Han) as En.
  unfold _log_prob. cbn zeta.
  destruct (tf_concat (log_prob_tensors interm_fluents)) as [ci|e]; [| discriminate Ei].
  cbn in Ei |- *. rewrite Ei. cbn.
  destruct (tf_concat (log_prob_tensors next_state_fluents)) as [cn|e]; [| discriminate En].
  cbn in En |- *. rewrite En. cbn.
  rewrite tf_add_vectors by (rewrite length_map, length_seq; reflexivity).
  cbn. unfold tf_expand_dims. cbn [dtype shape data app].
  rewrite zip_with_map_seq. reflexivity.
Qed.

End LogProb.

(** ** The step log-probability, for log_prob tensors of any width *)

Section LogProbRows.

Context {Scalar : Type} `{!ScalarOps Scalar}.
Implicit Types (t u : Tensor Scalar) (f : FluentTriple Scalar).

Lemma batch_row_length t batch n i :
  shape t = [batch; n] -> well_shaped t -> i < batch ->
  length (batch_row t i) = n.
Proof.
  unfold well_shaped, batch_row, slice. intros Hs Hw Hi. rewrite Hs in *.
  cbn [tail size_of foldr] in *. rewrite length_take, length_drop. nia.
Qed.

Lemma length_concat_map {A B : Type} (g : A -> list B) (l : list A) :
  length (concat (map g l)) = foldr Nat.add 0 (map (fun a => length (g a)) l).
Proof.
  induction l as [|a l IH]; [reflexivity |].
  simpl. rewrite length_app, IH. reflexivity.
Qed.

(** The rows of matrices laid side by side are as wide as the widths of
    the matrices together. *)
Lemma side_by_side_length dt batch (values : list (Tensor Scalar)) i :
  Forall (matrix_of dt batch) values -> i < batch ->
  length (concat (map (fun v => batch_row v i) values))
  = foldr Nat.add 0 (map (fun v => axis1 (shape v)) values).
Proof.
  intros Hall Hi. rewrite length_concat_map.
  induction Hall as [|v vs (_ & [n Hsv] & Hwv) _ IH]; [reflexivity |].
  simpl. rewrite IH, (batch_row_length v batch n i Hsv Hwv Hi), Hsv. reflexivity.
Qed.

(** Concatenating matrices along the feature axis lays their rows side
    by side. *)
Lemma tf_concat_matrices dt batch (values : list (Tensor Scalar)) :
  values <> [] ->
  Forall (matrix_of dt batch) values ->
  exists c,
    tf_concat values = Ok c /\
    dtype c = dt /\
    shape c = [batch; foldr Nat.add 0 (map (fun v => axis1 (shape v)) values)] /\
    forall i, i < batch ->
      batch_row c i = concat (map (fun u => batch_row u i) values).
Proof.
  intros Hne Hall.
  destruct values as [|t [|u rest]]; [congruence | |].
  - (* one tensor: returned as it is *)
    apply Forall_cons in Hall as [(Hd & [n Hs] & Hw) _].
    exists t. repeat split; try assumption.
    + simpl. rewrite Nat.add_0_r, Hs. reflexivity.
    + intros i Hi. simpl. rewrite app_nil_r. reflexivity.
  - pose proof (fun i => side_by_side_length dt batch _ i Hall) as Hlen.
    assert (Hdtypes : forallb (fun v => bool_decide (dtype v = dtype t)) (t :: u :: rest)
                      = true).
    { apply forallb_forall. intros v Hv.
      pose proof Hall as Hv'.
      apply Forall_forall with (x := v) in Hv'; [| apply list_elem_of_In; exact Hv].
      destruct Hv' as (Hd' & _).
      apply Forall_cons in Hall as [(Hd & _) _].
      rewrite Hd, Hd'. apply bool_decide_eq_true_2. reflexivity. }
    assert (Hcompat : forallb (concat_compatible t) (t :: u :: rest) = true).
    { apply forallb_forall. intros v Hv.
      pose proof Hall as Hv'.
      apply Forall_forall with (x := v) in Hv'; [| apply list_elem_of_In; exact Hv].
      destruct Hv' as (_ & [n' Hs'] & _).
      apply Forall_cons in Hall as [(_ & [n Hs] & _) _].
      unfold concat_compatible. rewrite Hs, Hs'.
      rewrite !bool_decide_eq_true_2; reflexivity. }
    apply Forall_cons in Hall as [(Hd & [n Hs] & Hw) _].
    eexists. split.
    { unfold tf_concat. rewrite Hdtypes, Hcompat. reflexivity. }
    cbn [dtype shape data]. rewrite Hs. cbn [hd tail].
    repeat split; [assumption |].
    intros i Hi. unfold batch_row at 1. cbn [shape data tail size_of foldr].
    rewrite Nat.mul_1_r.
    apply (slice_concat_rows _ batch
             (fun j => concat (map (fun v => batch_row v j) (t :: u :: rest))));
      [| assumption].
    intros j Hj. apply Hlen. assumption.
Qed.

Lemma log_prob_matrices dt batch (fluents : list (FluentTriple Scalar)) :
  Forall (log_prob_matrix dt batch) fluents ->
  Forall (matrix_of dt batch) (log_prob_tensors fluents).
Proof.
  induction 1 as [|[[name fluent] log_prob] fs Hf _ IH]; simpl; constructor; assumption.
Qed.

(** One group of fluents: concatenation, then reduction, gives for each
    batch row the sum of that row of all the log_prob tensors. *)
Lemma group_rows_reduced dt batch (fluents : list (FluentTriple Scalar)) :
  dt <> bool_ ->
  fluents <> [] ->
  Forall (log_prob_matrix dt batch) fluents ->
  tf_concat (log_prob_tensors fluents) ≫= tf_reduce_sum
  = Ok {| dtype := dt; shape := [batch];
          data := map (group_row_sum fluents) (seq 0 batch) |}.
Proof.
  intros Hdt Hne Hall. apply log_prob_matrices in Hall.
  destruct (tf_concat_matrices dt batch (log_prob_tensors fluents))
    as (c & Hc & Hd & Hs & Hrow);
    [intros E; apply map_eq_nil in E; contradiction | assumption |].
  rewrite Hc. cbn.
  apply (tf_reduce_sum_rows c dt batch _ _ Hdt Hd Hs Hrow).
  intros i Hi. apply (side_by_side_length dt batch); assumption.
Qed.

(** What [_log_prob] returns for groups of log_prob matrices. *)
Lemma log_prob_of_matrices dt batch
    (interm_fluents next_state_fluents : list (FluentTriple Scalar)) :
  dt <> bool_ ->
  interm_fluents <> [] ->
  next_state_fluents <> [] ->
  Forall (log_prob_matrix dt batch) interm_fluents ->
  Forall (log_prob_matrix dt batch) next_state_fluents ->
  _log_prob interm_fluents next_state_fluents
  = Ok {| dtype := dt;
          shape := [batch; 1];
          data := map (fun b => add (group_row_sum interm_fluents b)
                                    (group_row_sum next_state_fluents b))
                      (seq 0 batch) |}.
Proof.
  intros Hdt Hi Hn Hai Han.
  pose proof (group_rows_reduced dt batch interm_fluents Hdt Hi Hai) as Ei.
  pose proof (group_rows_reduced dt batch next_state_fluents Hdt Hn Han) as En.
  unfold _log_prob. cbn zeta.
  destruct (tf_concat (log_prob_tensors interm_fluents)) as [ci|e]; [| discriminate Ei].
  cbn in Ei |- *. rewrite Ei. cbn.
  destruct (tf_concat (log_prob_tensors next_state_fluents)) as [cn|e]; [| discriminate En].
  cbn in En |- *. rewrite En. cbn.
  rewrite tf_add_vectors by (rewrite length_map, length_seq; reflexivity).
  cbn. unfold tf_expand_dims. cbn [dtype shape data app].
  rewrite zip_with_map_seq. reflexivity.
Qed.

(** No log-probability without fluents in both groups. *)
Lemma log_prob_needs_both_groups
    (interm_fluents next_state_fluents : list (FluentTriple Scalar)) log_prob :
  _log_prob interm_fluents next_state_fluents = Ok log_prob ->
  interm_fluents <> [] /\ next_state_fluents <> [].
Proof.
  unfold _log_prob. cbn zeta. intros Hlp. split; intros ->.
  - discriminate Hlp.
  - destruct (tf_concat (log_prob_tensors interm_fluents)) as [ci|e]; [| discriminate Hlp].
    cbn in Hlp. destruct (tf_reduce_sum ci) as [ri|e]; discriminate Hlp.
Qed.

End LogProbRows.

(** ** One step of the cell *)

Section CellSteps.

Context {Scalar : Type} `{!ScalarOps Scalar} {Ext : Type}.
Implicit Types (w : World Scalar Ext) (c : MRMCell Scalar Ext).
Implicit Types (input : Tensor Scalar) (state : list (Tensor Scalar)).

(** What a step that returns has gone through: every call it made has
    returned, in this order, each from the external state the previous
    one left. *)
Lemma call_returns input state w output next_state w' :
  __call__ input state w = (Ok (output, next_state), w') ->
  exists action scope interm_fluents next_state_fluents sampled_scope log_prob reward
         e1 e2 e3,
    is_ok (tf_split_1_1 input) = true /\
    _policy (self w) state input (ext w) = (Ok action, e1) /\
    transition_scope (_compiler (self w)) state action e1 = (Ok scope, e2) /\
    compile_probabilistic_cpfs (_compiler (self w)) scope (_batch_size (self w)) e2
      = (Ok (interm_fluents, next_state_fluents, sampled_scope), e3) /\
    _log_prob interm_fluents next_state_fluents = Ok log_prob /\
    compile_reward (_compiler (self w))
      (dict_update sampled_scope (dict_of_fluents next_state_fluents)) e3
      = (Ok reward, ext w') /\
    self w' = self w /\
    output = (_output next_state_fluents, action, _output interm_fluents,
              tensor reward, log_prob) /\
    next_state = _output next_state_fluents.
Proof.
  unfold __call__, mbind, M_bind, bind, mret, M_ret, ret, lift_result, call_external.
  intros Hcall.
  destruct (tf_split_1_1 input) as [[timestep stop_flag]|e]; [| discriminate].
  destruct (_policy (self w) state input (ext w)) as [[action|e] e1] eqn:Hpolicy;
    [| discriminate].
  cbn [self ext] in Hcall.
  destruct (transition_scope (_compiler (self w)) state action e1)
    as [[scope|e] e2] eqn:Hscope; [| discriminate].
  cbn [self ext] in Hcall.
  destruct (compile_probabilistic_cpfs (_compiler (self w)) scope (_batch_size (self w)) e2)
    as [[[[interm_fluents next_state_fluents] sampled_scope]|e] e3] eqn:Hcpfs;
    [| discriminate].
  cbn [self ext] in Hcall.
  destruct (_log_prob interm_fluents next_state_fluents) as [log_prob|e] eqn:Hlp;
    [| discriminate].
  destruct (compile_reward (_compiler (self w)) _ e3) as [[reward|e] e4] eqn:Hreward;
    [| discriminate].
  injection Hcall as <- <- <-.
  exists action, scope, interm_fluents, next_state_fluents, sampled_scope, log_prob,
    reward, e1, e2, e3.
  repeat split; assumption.
Qed.

(** *** The scope that the reward is computed on *)

Lemma dict_of_fluents_snoc (fluents : list (FluentTriple Scalar)) name fluent log_prob :
  dict_of_fluents (fluents ++ [(name, fluent, log_prob)])
  = <[name := fluent]> (dict_of_fluents fluents).
Proof. unfold dict_of_fluents. rewrite foldl_app. reflexivity. Qed.

(** A name maps to the fluent of its last triple. *)
Lemma dict_of_fluents_last (fluents : list (FluentTriple Scalar)) :
  forall i name fluent log_prob,
    fluents !! i = Some (name, fluent, log_prob) ->
    (forall j t, i < j -> fluents !! j = Some t -> fluent_name t <> name) ->
    dict_of_fluents fluents !! name = Some fluent.
Proof.
  induction fluents as [|[[n f] lp] fluents IH] using rev_ind;
    intros i name fluent log_prob Hi Hlast; [discriminate |].
  rewrite dict_of_fluents_snoc.
  destruct (decide (i = length fluents)) as [-> | Hne].
  - rewrite list_lookup_middle in Hi by reflexivity.
    injection Hi as -> -> ->. apply lookup_insert_eq.
  - assert (Hlt : i < length fluents).
    { apply lookup_lt_Some in Hi. rewrite length_app in Hi. simpl in Hi. lia. }
    rewrite lookup_app_l in Hi by assumption.
    rewrite lookup_insert_ne.
    + apply (IH i name fluent log_prob Hi). intros j t Hj Ht.
      apply (Hlast j t Hj). rewrite lookup_app_l; [assumption |].
      apply lookup_lt_Some in Ht. assumption.
    + apply (Hlast (length fluents) (n, f, lp) Hlt).
      apply list_lookup_middle. reflexivity.
Qed.

(** A name that no triple has is not bound. *)
Lemma dict_of_fluents_other (fluents : list (FluentTriple Scalar)) name :
  name ∉ map fluent_name fluents ->
  dict_of_fluents fluents !! name = None.
Proof.
  induction fluents as [|[[n f] lp] fluents IH] using rev_ind; intros Hname.
  - apply lookup_empty.
  - rewrite dict_of_fluents_snoc. rewrite map_app in Hname. simpl in Hname.
    rewrite elem_of_app, list_elem_of_singleton in Hname.
    rewrite lookup_insert_ne by (intros ->; tauto).
    apply IH. tauto.
Qed.

(** C2.  In a step that returns, the reward in the output is the tensor
    of the fluent that [compile_reward] gives, called after the fluents
    have been sampled, on the transition scope updated with the next-state
    fluents.  The scope is the one dict that [transition_scope] returned and
    that the sampling was given: in the updated dict, the name of each
    next-state fluent maps to the fluent just sampled (the last one of that
    name), and every other name maps to what the dict held when the
    sampling returned. *)
Theorem reward_on_updated_scope input state w output next_state w' :
  __call__ input state w = (Ok (output, next_state), w') ->
  exists action scope interm_fluents next_state_fluents sampled_scope reward e1 e2 e3,
    _policy (self w) state input (ext w) = (Ok action, e1) /\
    transition_scope (_compiler (self w)) state action e1 = (Ok scope, e2) /\
    compile_probabilistic_cpfs (_compiler (self w)) scope (_batch_size (self w)) e2
      = (Ok (interm_fluents, next_state_fluents, sampled_scope), e3) /\
    let updated := dict_update sampled_scope (dict_of_fluents next_state_fluents) in
    compile_reward (_compiler (self w)) updated e3 = (Ok reward, ext w') /\
    out_reward output = tensor reward /\
    (forall i name fluent log_prob,
       next_state_fluents !! i = Some (name, fluent, log_prob) ->
       (forall j t, i < j -> next_state_fluents !! j = Some t -> fluent_name t <> name) ->
       updated !! name = Some fluent) /\
    (forall name,
       name ∉ map fluent_name next_state_fluents ->
       updated !! name = sampled_scope !! name).
Proof.
  intros Hcall.
  destruct (call_returns _ _ _ _ _ _ Hcall)
    as (action & scope & interm & next & sampled & log_prob & reward & e1 & e2 & e3 &
        _ & Hpolicy & Hscope & Hcpfs & _ & Hreward & _ & -> & _).
  exists action, scope, interm, next, sampled, reward, e1, e2, e3.
  repeat split; try assumption.
  - intros i name fluent lp Hi Hlast. unfold dict_update.
    apply lookup_union_Some_l. eapply dict_of_fluents_last; eassumption.
  - intros name Hname. unfold dict_update.
    apply lookup_union_r. apply dict_of_fluents_other. assumption.
Qed.

(** *** The dtype of the outputs *)

Lemma _dtype_float32 (t : Tensor Scalar) : dtype (_dtype t) = float32.
Proof.
  unfold _dtype. case_bool_decide as Hd; [reflexivity |].
  destruct (decide (dtype t = float32)) as [E | E]; [exact E | contradiction].
Qed.

(** [_dtype] casts exactly when the dtype is not [float32]. *)
Lemma _dtype_cases (t : Tensor Scalar) :
  _dtype t = if decide (dtype t = float32) then t else tf_cast t float32.
Proof.
  unfold _dtype. case_bool_decide as Hd; destruct (decide (dtype t = float32)); 
    try reflexivity; contradiction.
Qed.

Lemma _output_float32 (fluents : list (FluentTriple Scalar)) :
  Forall (fun t => dtype t = float32) (_output fluents).
Proof.
  unfold _output. apply Forall_forall. intros t Ht.
  apply list_elem_of_In, in_map_iff in Ht as (u & <- & _). apply _dtype_float32.
Qed.

(** In a step that returns, every tensor of the next_state and of the
    interm_state components has dtype [float32]:
    it is the tensor of the fluent when that is [float32] already, and
    its cast to [float32] otherwise.  The action component is the tuple
    that the policy returned, as it is. *)
Theorem fluent_outputs_are_float32 input state w output next_state w' :
  __call__ input state w = (Ok (output, next_state), w') ->
  Forall (fun t => dtype t = float32) (out_next_state output) /\
  Forall (fun t => dtype t = float32) (out_interm_state output) /\
  exists action scope interm_fluents next_state_fluents sampled_scope e1 e2 e3,
    _policy (self w) state input (ext w) = (Ok action, e1) /\
    transition_scope (_compiler (self w)) state action e1 = (Ok scope, e2) /\
    compile_probabilistic_cpfs (_compiler (self w)) scope (_batch_size (self w)) e2
      = (Ok (interm_fluents, next_state_fluents, sampled_scope), e3) /\
    out_action output = action /\
    out_next_state output
      = map (fun t => if decide (dtype t = float32) then t else tf_cast t float32)
            (_tensors next_state_fluents) /\
    out_interm_state output
      = map (fun t => if decide (dtype t = float32) then t else tf_cast t float32)
            (_tensors interm_fluents).
Proof.
  intros Hcall.
  destruct (call_returns _ _ _ _ _ _ Hcall)
    as (action & scope & interm & next & sampled & log_prob & reward & e1 & e2 & e3 &
        _ & Hpolicy & Hscope & Hcpfs & _ & _ & _ & -> & _).
  cbn [out_next_state out_interm_state out_action].
  split; [apply _output_float32 |]. split; [apply _output_float32 |].
  exists action, scope, interm, next, sampled, e1, e2, e3.
  repeat split; try assumption;
    unfold _output; apply map_ext; intros t; apply _dtype_cases.
Qed.

(** *** The output size and the carried state *)

(** C7.  The output size of a cell is the state, action and intermediate
    sizes of the compiler it was built with, followed by 1 and 1. *)
Theorem output_size_of_cell (compiler : Compiler Scalar Ext)
    (policy : DeepReactivePolicy Scalar Ext) (batch_size : nat) :
  output_size (__init__ compiler policy batch_size)
  = (state_size compiler, action_size compiler, interm_size compiler, 1, 1).
Proof. reflexivity. Qed.

(** C8.  The state that a step returns beside its output is the
    next_state component of that output. *)
Theorem carried_state_is_output_next_state input state w output next_state w' :
  __call__ input state w = (Ok (output, next_state), w') ->
  next_state = out_next_state output.
Proof.
  intros Hcall.
  destruct (call_returns _ _ _ _ _ _ Hcall)
    as (action & scope & interm & next & sampled & log_prob & reward & e1 & e2 & e3 &
        _ & _ & _ & _ & _ & _ & _ & -> & ->).
  reflexivity.
Qed.

End CellSteps.

(** ** The rollout driver *)

Section Rollout.

Context {Scalar : Type} `{!ScalarOps Scalar}.
Implicit Types (r : Tensor Scalar).

Lemma lookup_repeat {A : Type} (a : A) n i : i < n -> repeat a n !! i = Some a.
Proof.
  revert i. induction n as [|n IH]; intros [|i] Hi; try lia; [reflexivity |].
  simpl. apply IH. lia.
Qed.

Lemma repeat_as_map {A : Type} (a : A) n : repeat a n = map (fun _ => a) (seq 0 n).
Proof.
  induction n as [|n IH]; [reflexivity |].
  rewrite map_seq_S. simpl. f_equal. exact IH.
Qed.

(** The rows of a tensor of shape [[batch, horizon, 1]] glued from one
    row per batch index. *)
Lemma batch_row_of_rows dt batch_size horizon (row : nat -> list Scalar) b :
  (forall j, j < batch_size -> length (row j) = horizon) ->
  b < batch_size ->
  batch_row {| dtype := dt; shape := [batch_size; horizon; 1];
               data := concat (map row (seq 0 batch_size)) |} b
  = row b.
Proof.
  intros Hlen Hb. unfold batch_row. cbn [shape data tail size_of foldr].
  rewrite !Nat.mul_1_r. apply slice_concat_rows; assumption.
Qed.

Lemma lookup_map {A B : Type} (f : A -> B) (l : list A) i :
  map f l !! i = option_map f (l !! i).
Proof.
  revert i. induction l as [|a l IH]; intros [|i]; try reflexivity. apply IH.
Qed.

Lemma length_countdown horizon : length (countdown horizon) = horizon.
Proof. induction horizon as [|h IH]; simpl; congruence. Qed.

Lemma countdown_lookup horizon : forall t,
  t < horizon -> countdown horizon !! t = Some (Z.of_nat (horizon - 1 - t)).
Proof.
  induction horizon as [|h IH]; intros t Ht; [lia |].
  destruct t as [|t]; simpl.
  - do 2 f_equal. lia.
  - rewrite IH by lia. do 2 f_equal. lia.
Qed.

(** C5.  [timesteps] has shape [[batch, horizon, 1]], and each of its
    batch rows is the countdown horizon-1, horizon-2, ..., 0: entry [t]
    stands for horizon-1-t, and the sequence strictly decreases. *)
Theorem timesteps_count_down batch_size horizon :
  shape (timesteps batch_size horizon) = [batch_size; horizon; 1] /\
  well_shaped (timesteps batch_size horizon) /\
  (forall b, b < batch_size ->
     batch_row (timesteps batch_size horizon) b = map of_Z (countdown horizon)) /\
  (forall b t, b < batch_size -> t < horizon ->
     entry (timesteps batch_size horizon) b t
     = Some (of_Z (Z.of_nat (horizon - 1 - t)))) /\
  (forall i j vi vj, i < j ->
     countdown horizon !! i = Some vi -> countdown horizon !! j = Some vj ->
     (vj < vi)%Z).
Proof.
  assert (Hrow : forall b, b < batch_size ->
            batch_row (timesteps batch_size horizon) b = map of_Z (countdown horizon)).
  { intros b Hb. unfold timesteps. rewrite repeat_as_map.
    apply (batch_row_of_rows _ _ _ (fun _ => map of_Z (countdown horizon))); [| exact Hb].
    intros j _. rewrite length_map. apply length_countdown. }
  split; [reflexivity |]. split.
  { unfold well_shaped, timesteps. cbn [shape data size_of foldr].
    rewrite repeat_as_map.
    rewrite (length_concat_rows horizon) by
      (intros j _; rewrite length_map; apply length_countdown).
    lia. }
  split; [exact Hrow |]. split.
  - intros b t Hb Ht. unfold entry. rewrite (Hrow b Hb).
    rewrite lookup_map, countdown_lookup by exact Ht. reflexivity.
  - intros i j vi vj Hij Hi Hj.
    assert (Hjh : j < horizon).
    { apply lookup_lt_Some in Hj. rewrite length_countdown in Hj. exact Hj. }
    rewrite countdown_lookup in Hi by lia. rewrite countdown_lookup in Hj by lia.
    injection Hi as <-. injection Hj as <-. lia.
Qed.

(** C6.  [stop_flags] has shape [[batch, horizon, 1]]; every entry, at
    every batch row and every step, stands for 0 when the rollout is
    fully reparameterized and for 1 when it is not reparameterized. *)
Theorem stop_flags_constant batch_size horizon :
  (forall reparam_type,
     shape (stop_flags batch_size horizon reparam_type) = [batch_size; horizon; 1] /\
     well_shaped (stop_flags batch_size horizon reparam_type)) /\
  data (stop_flags batch_size horizon FULLY_REPARAMETERIZED)
    = repeat (of_Z 0) (batch_size * horizon) /\
  data (stop_flags batch_size horizon NOT_REPARAMETERIZED)
    = repeat (of_Z 1) (batch_size * horizon) /\
  (forall b t, b < batch_size -> t < horizon ->
     entry (stop_flags batch_size horizon FULLY_REPARAMETERIZED) b t = Some (of_Z 0) /\
     entry (stop_flags batch_size horizon NOT_REPARAMETERIZED) b t = Some (of_Z 1)).
Proof.
  assert (Hentry : forall reparam_type b t, b < batch_size -> t < horizon ->
            entry (stop_flags batch_size horizon reparam_type) b t
            = Some (of_Z (stop_flag_value reparam_type))).
  { intros reparam_type b t Hb Ht. unfold entry, batch_row, stop_flags, slice.
    cbn [shape data tail size_of foldr]. rewrite !Nat.mul_1_r.
    rewrite lookup_take_lt by exact Ht. rewrite lookup_drop.
    apply lookup_repeat. nia. }
  split.
  { intros reparam_type. split; [reflexivity |].
    unfold well_shaped, stop_flags. cbn [shape data size_of foldr].
    rewrite repeat_length. lia. }
  split; [reflexivity |]. split; [reflexivity |].
  intros b t Hb Ht. split; apply Hentry; assumption.
Qed.

Lemma suffix_sum_cons (a b : Scalar) (l : list Scalar) :
  suffix_sum (a :: b :: l) = add a (suffix_sum (b :: l)).
Proof. reflexivity. Qed.

(** The rows of the reward-to-go of a reward tensor of shape
    [[batch, horizon, 1]]. *)
Lemma reward_to_go_row r batch_size horizon b :
  shape r = [batch_size; horizon; 1] ->
  b < batch_size ->
  batch_row (reward_to_go r) b
  = map (fun t => suffix_sum (drop t (batch_row r b))) (seq 0 horizon).
Proof.
  intros Hs Hb. unfold reward_to_go. rewrite Hs. cbn [hd axis1].
  apply (batch_row_of_rows _ _ _
           (fun b => map (fun t => suffix_sum (drop t (batch_row r b))) (seq 0 horizon)));
    [| exact Hb].
  intros j _. rewrite length_map, length_seq. reflexivity.
Qed.

Lemma reward_row_length r batch_size horizon b :
  shape r = [batch_size; horizon; 1] -> well_shaped r -> b < batch_size ->
  length (batch_row r b) = horizon.
Proof.
  unfold well_shaped, batch_row, slice. intros Hs Hw Hb. rewrite Hs in *.
  cbn [tail size_of foldr] in *. rewrite length_take, length_drop. nia.
Qed.

Lemma reward_to_go_entry r batch_size horizon b t :
  shape r = [batch_size; horizon; 1] -> b < batch_size -> t < horizon ->
  entry (reward_to_go r) b t = Some (suffix_sum (drop t (batch_row r b))).
Proof.
  intros Hs Hb Ht. unfold entry.
  rewrite (reward_to_go_row r batch_size horizon b Hs Hb).
  rewrite (lookup_nth _ _ zero) by (rewrite length_map, length_seq; exact Ht).
  f_equal. rewrite (nth_indep _ _ (suffix_sum (drop 0 (batch_row r b))))
    by (rewrite length_map, length_seq; exact Ht).
  rewrite (map_nth (fun t => suffix_sum (drop t (batch_row r b)))).
  rewrite seq_nth by exact Ht. reflexivity.
Qed.

(** C4.  For a reward tensor of shape [[batch, horizon, 1]],
    [reward_to_go] keeps the dtype and the shape; at the last step it equals
    the reward itself, at the first step it equals the total return of the
    trajectory, and at each earlier step it is the reward of that step
    added to the reward-to-go of the next step. *)
Theorem reward_to_go_recurrence r batch_size horizon :
  shape r = [batch_size; horizon; 1] -> well_shaped r -> 1 <= horizon ->
  dtype (reward_to_go r) = dtype r /\
  shape (reward_to_go r) = shape r /\
  well_shaped (reward_to_go r) /\
  (forall b, b < batch_size ->
     entry (reward_to_go r) b (horizon - 1) = entry r b (horizon - 1) /\
     entry (reward_to_go r) b 0 = Some (total_return r b)) /\
  (forall b t, b < batch_size -> t + 1 < horizon ->
     exists v q,
       entry r b t = Some v /\
       entry (reward_to_go r) b (t + 1) = Some q /\
       entry (reward_to_go r) b t = Some (add v q)).
Proof.
  intros Hs Hw Hh.
  split; [reflexivity |]. split; [reflexivity |]. split.
  { unfold well_shaped, reward_to_go. cbn [shape data]. rewrite Hs.
    cbn [hd axis1 size_of foldr].
    rewrite (length_concat_rows horizon)
      by (intros j _; rewrite length_map, length_seq; reflexivity).
    lia. }
  split.
  - intros b Hb.
    pose proof (reward_row_length r batch_size horizon b Hs Hw Hb) as Hlen.
    split.
    + rewrite (reward_to_go_entry r batch_size horizon b (horizon - 1) Hs Hb) by lia.
      unfold entry.
      destruct (lookup_lt_is_Some_2 (batch_row r b) (horizon - 1)) as [x Hx]; [lia |].
      rewrite Hx. f_equal.
      rewrite (drop_S _ x _ Hx). rewrite drop_ge by lia. reflexivity.
    + rewrite (reward_to_go_entry r batch_size horizon b 0 Hs Hb) by lia.
      reflexivity.
  - intros b t Hb Ht.
    pose proof (reward_row_length r batch_size horizon b Hs Hw Hb) as Hlen.
    destruct (lookup_lt_is_Some_2 (batch_row r b) t) as [x Hx]; [lia |].
    destruct (lookup_lt_is_Some_2 (batch_row r b) (t + 1)) as [y Hy]; [lia |].
    exists x, (suffix_sum (drop (t + 1) (batch_row r b))).
    split; [exact Hx |]. split.
    + apply (reward_to_go_entry r batch_size horizon b (t + 1) Hs Hb). exact Ht.
    + rewrite (reward_to_go_entry r batch_size horizon b t Hs Hb) by lia.
      f_equal. rewrite (drop_S _ x _ Hx).
      replace (t + 1) with (S t) in * by lia.
      rewrite (drop_S _ y _ Hy). reflexivity.
Qed.

End Rollout.

(** ** The planner's JSON constructor *)

Section Planner.

Variable getattr : planner.Object -> string -> result planner.Object.
Variable call : planner.Object -> list planner.Object -> result planner.Object.

Lemma json_is_unbound :
  bool_decide ("json"%string ∈ planner.module_globals ++ planner.builtins) = false.
Proof. vm_compute. reflexivity. Qed.

Lemma json_string_is_unbound :
  bool_decide ("json_string"%string ∈ planner.module_globals ++ planner.builtins) = false.
Proof. vm_compute. reflexivity. Qed.

(** With every import succeeding, the module body stops at
    [Callback = Callable[[],]]. *)
Lemma import_stops_at_alias importable :
  (forall m, importable m = true) ->
  planner.import_module importable = Raise TypeError.
Proof.
  intros Himport. unfold planner.import_module, planner.module_body.
  cbn [planner.exec_all planner.exec]. rewrite !Himport.
  vm_compute. reflexivity.
Qed.

(** Whatever imports succeed, the module body raises before it ends: at
    the first import that fails, else at the alias. *)
Lemma import_never_completes importable :
  exists e,
    planner.import_module importable = Raise e /\
    (e = TypeError \/ exists m, importable m = false /\ e = ImportError m).
Proof.
  unfold planner.import_module, planner.module_body.
  cbn [planner.exec_all planner.exec].
  repeat match goal with
  | |- context [importable ?m] =>
      let H := fresh "Himport" in
      destruct (importable m) eqn:H;
        [| eexists; split;
           [reflexivity | right; exists m; split; [exact H | reflexivity]]]
  end.
  exists TypeError. split; [vm_compute; reflexivity | left; reflexivity].
Qed.


End Planner.

(** ** Errors and edges of a step *)

Section CellEdges.

Context {Scalar : Type} `{!ScalarOps Scalar} {Ext : Type}.
Implicit Types (w : World Scalar Ext) (c : MRMCell Scalar Ext).
Implicit Types (input : Tensor Scalar) (state : list (Tensor Scalar)).

(** Converting to [float32] twice is converting once, and the tensors
    that the conversion leaves as they are, are those of dtype
    [float32]. *)
Theorem dtype_conversion_idempotent (t : Tensor Scalar) :
  _dtype (_dtype t) = _dtype t /\
  (_dtype t = t <-> dtype t = float32).
Proof.
  split.
  - unfold _dtype at 1. rewrite bool_decide_eq_false_2; [reflexivity |].
    intros Hne. apply Hne, _dtype_float32.
  - split.
    + intros E. rewrite <- E. apply _dtype_float32.
    + intros E. unfold _dtype.
      rewrite bool_decide_eq_false_2; [reflexivity | intros Hne; exact (Hne E)].
Qed.

Lemma _dtype_shape (t : Tensor Scalar) :
  shape (_dtype t) = shape t /\ length (data (_dtype t)) = length (data t).
Proof.
  unfold _dtype. destruct (bool_decide (dtype t <> float32)); cbn.
  - rewrite length_map. split; reflexivity.
  - split; reflexivity.
Qed.

(** [_output] gives one tensor per fluent, in the order of the fluents:
    at each position, the tensor of the fluent at that position (neither
    its name nor its log_prob), converted to [float32]; the shapes and the
    numbers of elements are those of the fluents' tensors. *)
Theorem output_follows_fluents (fluents : list (FluentTriple Scalar)) :
  length (_output fluents) = length fluents /\
  map shape (_output fluents) = map shape (_tensors fluents) /\
  map (fun t => length (data t)) (_output fluents)
  = map (fun t => length (data t)) (_tensors fluents) /\
  (forall i name fluent log_prob,
     fluents !! i = Some (name, fluent, log_prob) ->
     _output fluents !! i = Some (_dtype (tensor fluent))).
Proof.
  unfold _output, _tensors. split; [rewrite !length_map; reflexivity |].
  split; [| split].
  - rewrite !map_map. apply map_ext. intros [[name fluent] log_prob].
    apply _dtype_shape.
  - rewrite !map_map. apply map_ext. intros [[name fluent] log_prob].
    apply _dtype_shape.
  - intros i name fluent log_prob Hi. rewrite map_map, lookup_map.
    etransitivity; [apply f_equal; exact Hi | reflexivity].
Qed.

(** An input that [tf.split] cannot cut into a timestep and a stop flag
    makes the step raise [ValueError] before the policy or the compiler is
    called: the world is left as it was. *)
Theorem call_rejects_input input state w :
  is_ok (tf_split_1_1 input) = false ->
  __call__ input state w = (Raise ValueError, w).
Proof.
  unfold __call__, mbind, M_bind, bind, lift_result, tf_split_1_1. intros Hsplit.
  destruct (shape input) as [|b [|[|[|[|n]]] rest]]; try reflexivity; discriminate Hsplit.
Qed.

Ltac unfold_call :=
  unfold __call__, mbind, M_bind, bind, mret, M_ret, ret, lift_result, call_external.

(** A model without intermediate fluents cannot be stepped: with no
    log_prob tensor to concatenate, [tf.concat] raises [ValueError], and
    the step raises it after the next state was sampled and before the
    reward is compiled. *)
Theorem call_needs_interm_fluents input state w action scope next_state_fluents
    sampled_scope e1 e2 e3 :
  is_ok (tf_split_1_1 input) = true ->
  _policy (self w) state input (ext w) = (Ok action, e1) ->
  transition_scope (_compiler (self w)) state action e1 = (Ok scope, e2) ->
  compile_probabilistic_cpfs (_compiler (self w)) scope (_batch_size (self w)) e2
    = (Ok ([], next_state_fluents, sampled_scope), e3) ->
  __call__ input state w = (Raise ValueError, {| self := self w; ext := e3 |}).
Proof.
  intros Hsplit Hpolicy Hscope Hcpfs. unfold_call.
  destruct (tf_split_1_1 input) as [[timestep stop_flag]|e]; [| discriminate Hsplit].
  rewrite Hpolicy. cbn [self ext]. rewrite Hscope. cbn [self ext].
  rewrite Hcpfs. reflexivity.
Qed.

(** The cell makes no use of the timestep and of the stop flag that it
    splits the input into: two inputs that both split, and on which the
    policy answers the same, give the same step. *)
Theorem call_uses_input_through_policy input1 input2 state w :
  is_ok (tf_split_1_1 input1) = true ->
  is_ok (tf_split_1_1 input2) = true ->
  _policy (self w) state input1 (ext w) = _policy (self w) state input2 (ext w) ->
  __call__ input1 state w = __call__ input2 state w.
Proof.
  intros H1 H2 Hpolicy. unfold_call.
  destruct (tf_split_1_1 input1) as [[t1 s1]|e]; [| discriminate H1].
  destruct (tf_split_1_1 input2) as [[t2 s2]|e]; [| discriminate H2].
  rewrite Hpolicy. reflexivity.
Qed.

End CellEdges.

(** ** The names of the updated scope, and the log-probability of a step *)

Section ScopeNames.

Context {Scalar : Type}.

Lemma dom_dict_of_fluents (fluents : list (FluentTriple Scalar)) :
  dom (dict_of_fluents fluents) =@{gset string} list_to_set (map fluent_name fluents).
Proof.
  induction fluents as [|[[name fluent] log_prob] fluents IH] using rev_ind.
  - unfold dict_of_fluents. cbn. apply dom_empty_L.
  - unfold dict_of_fluents in *.
    rewrite foldl_app, map_app, list_to_set_app_L. cbn [foldl].
    rewrite dom_insert_L, IH. cbn. rewrite (right_id_L ∅ (∪)). apply (comm_L (∪)).
Qed.

(** Updating the scope with the next-state fluents removes no name from
    it: the names of the updated scope are those of the scope and those of
    the next-state fluents. *)
Theorem scope_update_names (scope : gmap string (TensorFluent Scalar))
    (next_state_fluents : list (FluentTriple Scalar)) :
  dom (dict_update scope (dict_of_fluents next_state_fluents))
  =@{gset string} dom scope ∪ list_to_set (map fluent_name next_state_fluents).
Proof.
  unfold dict_update. rewrite dom_union_L, dom_dict_of_fluents. apply (comm_L (∪)).
Qed.

End ScopeNames.

Section StepLogProb.

Context {Scalar : Type} `{!ScalarOps Scalar} {Ext : Type}.
Implicit Types (w : World Scalar Ext).

(** C1.  In a step that returns, the log_prob output is what
    [_log_prob] makes of the fluents that the step sampled, of which there
    is at least one intermediate and one next-state fluent: each group's
    log_prob tensors are concatenated along the feature axis and summed
    over it, and the two sums are added.  With log_prob tensors of shape
    [[batch, n]] (any [n], fluent by fluent) and of one dtype, the output
    has that dtype and shape [[batch, 1]], and holds for each batch row the
    sum of that row over the intermediate fluents plus the sum of that row
    over the next-state fluents. *)
Theorem step_log_prob_is_sum_of_groups input state w output next_state w' :
  __call__ input state w = (Ok (output, next_state), w') ->
  exists action scope interm_fluents next_state_fluents sampled_scope e1 e2 e3,
    _policy (self w) state input (ext w) = (Ok action, e1) /\
    transition_scope (_compiler (self w)) state action e1 = (Ok scope, e2) /\
    compile_probabilistic_cpfs (_compiler (self w)) scope (_batch_size (self w)) e2
      = (Ok (interm_fluents, next_state_fluents, sampled_scope), e3) /\
    interm_fluents <> [] /\ next_state_fluents <> [] /\
    _log_prob interm_fluents next_state_fluents = Ok (out_log_prob output) /\
    forall dt batch,
      dt <> bool_ ->
      Forall (log_prob_matrix dt batch) interm_fluents ->
      Forall (log_prob_matrix dt batch) next_state_fluents ->
      out_log_prob output
      = {| dtype := dt; shape := [batch; 1];
           data := map (fun b => add (group_row_sum interm_fluents b)
                                     (group_row_sum next_state_fluents b))
                       (seq 0 batch) |}.
Proof.
  intros Hcall.
  destruct (call_returns _ _ _ _ _ _ Hcall)
    as (action & scope & interm & next & sampled & log_prob & reward & e1 & e2 & e3 &
        _ & Hpolicy & Hscope & Hcpfs & Hlp & _ & _ & -> & _).
  destruct (log_prob_needs_both_groups _ _ _ Hlp) as [Hi Hn].
  exists action, scope, interm, next, sampled, e1, e2, e3.
  cbn [out_log_prob]. repeat split; try assumption.
  intros dt batch Hdt Hai Han.
  rewrite (log_prob_of_matrices dt batch interm next Hdt Hi Hn Hai Han) in Hlp.
  injection Hlp as <-. reflexivity.
Qed.

(** The log-probability in the output of a step that returns: the
    fluents that the step sampled are at least one intermediate and one
    next-state fluent, and when their log_prob tensors have shape
    [[batch, 1]] and one dtype, the log_prob output has that dtype and
    shape and holds, for each batch row, the sum of the intermediate
    log-probabilities plus the sum of the next-state ones. *)
Theorem step_log_prob_is_sum input state w output next_state w' :
  __call__ input state w = (Ok (output, next_state), w') ->
  exists action scope interm_fluents next_state_fluents sampled_scope e1 e2 e3,
    _policy (self w) state input (ext w) = (Ok action, e1) /\
    transition_scope (_compiler (self w)) state action e1 = (Ok scope, e2) /\
    compile_probabilistic_cpfs (_compiler (self w)) scope (_batch_size (self w)) e2
      = (Ok (interm_fluents, next_state_fluents, sampled_scope), e3) /\
    interm_fluents <> [] /\ next_state_fluents <> [] /\
    forall dt batch,
      dt <> bool_ ->
      Forall (log_prob_shaped dt batch) interm_fluents ->
      Forall (log_prob_shaped dt batch) next_state_fluents ->
      out_log_prob output
      = {| dtype := dt; shape := [batch; 1];
           data := map (fun b => add (group_log_prob interm_fluents b)
                                     (group_log_prob next_state_fluents b))
                       (seq 0 batch) |}.
Proof.
  intros Hcall.
  destruct (call_returns _ _ _ _ _ _ Hcall)
    as (action & scope & interm & next & sampled & log_prob & reward & e1 & e2 & e3 &
        _ & Hpolicy & Hscope & Hcpfs & Hlp & _ & _ & -> & _).
  destruct (log_prob_needs_both_groups _ _ _ Hlp) as [Hi Hn].
  exists action, scope, interm, next, sampled, e1, e2, e3.
  repeat split; try assumption.
  intros dt batch Hdt Hai Han. cbn [out_log_prob].
  rewrite (log_prob_is_sum_of_groups dt batch interm next Hdt Hi Hn Hai Han) in Hlp.
  injection Hlp as <-. reflexivity.
Qed.

End StepLogProb.

(** ** The properties at the small instance *)

Section Instance.

#[local] Existing Instance demo.Z_ops.

Local Open Scope Z_scope.

Lemma demo_step :
  __call__ demo.input demo.state demo.world
  = (Ok (demo.output, demo.next_state), mkWorld demo.cell 8%nat).
Proof. vm_compute. reflexivity. Defined.

Lemma demo_int_step :
  __call__ demo.input demo.state demo.int_world
  = (Ok (demo.int_output, demo.next_state), mkWorld demo.int_cell 8%nat).
Proof. vm_compute. reflexivity. Defined.

Lemma demo_wide_step :
  __call__ demo.input demo.state demo.wide_world
  = (Ok (demo.wide_output, demo.next_state), mkWorld (self demo.wide_world) 8%nat).
Proof. vm_compute. reflexivity. Defined.

(** What the collaborators of the instance return. *)
Lemma demo_policy :
  demo.policy demo.state demo.input 7%nat = (Ok demo.action, 7%nat).
Proof. reflexivity. Qed.

Lemma demo_scope :
  transition_scope demo.compiler demo.state demo.action 7%nat = (Ok demo.scope, 7%nat).
Proof. vm_compute. reflexivity. Qed.

Lemma demo_cpfs :
  compile_probabilistic_cpfs demo.compiler demo.scope 2 7%nat
  = (Ok (demo.interm_fluents, demo.next_state_fluents, demo.sampled_scope), 8%nat).
Proof. vm_compute. reflexivity. Qed.

Lemma demo_wide_cpfs :
  compile_probabilistic_cpfs demo.wide_compiler demo.scope 2 7%nat
  = (Ok (demo.interm_fluents, demo.wide_next_state_fluents, demo.sampled_scope), 8%nat).
Proof. vm_compute. reflexivity. Qed.

(** The values that a step of the instance went through, from the
    equations that it leaves. *)
Ltac identify H known :=
  let E := fresh "E" in
  pose proof (eq_trans (eq_sym known) H) as E;
  injection E; clear E; intros; subst.

Lemma step_log_prob_is_sum_of_groups_witness :
  __call__ demo.input demo.state demo.wide_world
  = (Ok (demo.wide_output, demo.next_state), mkWorld (self demo.wide_world) 8%nat) /\
  _log_prob demo.interm_fluents demo.wide_next_state_fluents
  = Ok (out_log_prob demo.wide_output) /\
  out_log_prob demo.wide_output
  = {| dtype := float32; shape := [2%nat; 1%nat];
       data := [(-1 + -2) + (-10 + -10); (-1 + -2) + (-10 + -10)] |}.
Proof.
  split; [exact demo_wide_step |].
  destruct (step_log_prob_is_sum_of_groups _ _ _ _ _ _ demo_wide_step)
    as (action & scope & interm & next & sampled & e1 & e2 & e3 &
        Hpolicy & Hscope & Hcpfs & _ & _ & Hlp & Hsum).
  identify Hpolicy demo_policy. identify Hscope demo_scope.
  identify Hcpfs demo_wide_cpfs.
  split; [exact Hlp |].
  exact (Hsum float32 2%nat ltac:(discriminate)
           ltac:(repeat first [reflexivity | eexists | constructor])
           ltac:(repeat first [reflexivity | eexists | constructor])).
Defined.

Lemma reward_on_updated_scope_witness :
  exists reward,
    compile_reward demo.compiler
      (dict_update demo.sampled_scope (dict_of_fluents demo.next_state_fluents)) 8%nat
    = (Ok reward, 8%nat) /\
    out_reward demo.output = tensor reward /\
    dict_update demo.sampled_scope (dict_of_fluents demo.next_state_fluents)
      !! "location'"%string
    = Some (demo.fluent int32 [2%nat; 2%nat] [8; 6; 13; 13]) /\
    dict_update demo.sampled_scope (dict_of_fluents demo.next_state_fluents)
      !! "distance"%string
    = demo.sampled_scope !! "distance"%string.
Proof.
  destruct (reward_on_updated_scope _ _ _ _ _ _ demo_step)
    as (action & scope & interm & next & sampled & reward & e1 & e2 & e3 &
        Hpolicy & Hscope & Hcpfs & Hreward & Hout & Hnew & Hold).
  identify Hpolicy demo_policy. identify Hscope demo_scope. identify Hcpfs demo_cpfs.
  exists reward.
  split; [exact Hreward |]. split; [exact Hout |]. split.
  - apply (Hnew 0%nat "location'"%string _
             (demo.fluent float32 [2%nat; 1%nat] [-10; -10]) eq_refl).
    intros [|j] t Hj Ht; [lia | discriminate Ht].
  - apply Hold. intros Hin. apply list_elem_of_In in Hin. simpl in Hin.
    destruct Hin as [Hin | []]. discriminate Hin.
Defined.

(** C3.  With a policy whose action tensor holds integers, the step
    returns that tensor as the action, with dtype [int32]: no conversion
    to [float32] is applied to the action, unlike to the next_state and
    interm_state tensors. *)
Lemma action_output_keeps_its_dtype :
  __call__ demo.input demo.state demo.int_world
  = (Ok (demo.int_output, demo.next_state), mkWorld demo.int_cell 8%nat) /\
  out_action demo.int_output = [mkTensor int32 [2%nat; 2%nat] [1; -1; 1; -1]] /\
  ~ (Forall (fun t => dtype t = float32) (out_next_state demo.int_output) /\
     Forall (fun t => dtype t = float32) (out_action demo.int_output) /\
     Forall (fun t => dtype t = float32) (out_interm_state demo.int_output)).
Proof.
  split; [exact demo_int_step |]. split; [reflexivity |].
  intros (_ & Haction & _). inversion Haction as [| t l Hdtype _]. discriminate Hdtype.
Qed.

Lemma fluent_outputs_are_float32_witness :
  Forall (fun t => dtype t = float32) (out_next_state demo.int_output) /\
  Forall (fun t => dtype t = float32) (out_interm_state demo.int_output) /\
  out_action demo.int_output = demo.int_action.
Proof.
  destruct (fluent_outputs_are_float32 _ _ _ _ _ _ demo_int_step)
    as (Hnext & Hinterm & _).
  split; [exact Hnext |]. split; [exact Hinterm | reflexivity].
Defined.

Lemma carried_state_is_output_next_state_witness :
  __call__ demo.input demo.state demo.world
  = (Ok (demo.output, demo.next_state), mkWorld demo.cell 8%nat) /\
  demo.next_state = out_next_state demo.output.
Proof.
  split; [exact demo_step |].
  exact (carried_state_is_output_next_state _ _ _ _ _ _ demo_step).
Defined.

Lemma reward_to_go_recurrence_witness :
  shape demo.some_rewards = [2%nat; 3%nat; 1%nat] /\
  well_shaped demo.some_rewards /\
  (1 <= 3)%nat /\
  shape (reward_to_go demo.some_rewards) = [2%nat; 3%nat; 1%nat] /\
  entry (reward_to_go demo.some_rewards) 1 2 = entry demo.some_rewards 1 2 /\
  entry (reward_to_go demo.some_rewards) 1 0 = Some (total_return demo.some_rewards 1) /\
  exists v q,
    entry demo.some_rewards 1 0 = Some v /\
    entry (reward_to_go demo.some_rewards) 1 1 = Some q /\
    entry (reward_to_go demo.some_rewards) 1 0 = Some (v + q).
Proof.
  assert (Hshape : shape demo.some_rewards = [2%nat; 3%nat; 1%nat]) by reflexivity.
  assert (Hwell : well_shaped demo.some_rewards) by reflexivity.
  assert (Hhorizon : (1 <= 3)%nat) by lia.
  destruct (reward_to_go_recurrence demo.some_rewards 2 3 Hshape Hwell Hhorizon)
    as (_ & Hs & _ & Hends & Hrec).
  split; [exact Hshape |]. split; [exact Hwell |]. split; [exact Hhorizon |].
  split; [exact Hs |].
  destruct (Hends 1%nat ltac:(lia)) as [Hlast Hfirst].
  split; [exact Hlast |]. split; [exact Hfirst |].
  exact (Hrec 1%nat 0%nat ltac:(lia) ltac:(lia)).
Defined.

Lemma timesteps_count_down_witness :
  shape (timesteps 2 4) = [2%nat; 4%nat; 1%nat] /\
  batch_row (timesteps 2 4) 1 = [3; 2; 1; 0] /\
  entry (timesteps 2 4) 1 1 = Some 2 /\
  (1 < 3)%Z.
Proof.
  destruct (timesteps_count_down (Scalar := Z) 2 4)
    as (Hshape & _ & Hrow & Hentry & Hdecreasing).
  split; [exact Hshape |]. split; [exact (Hrow 1%nat ltac:(lia)) |].
  split; [exact (Hentry 1%nat 1%nat ltac:(lia) ltac:(lia)) |].
  exact (Hdecreasing 0%nat 2%nat 3 1 ltac:(lia) eq_refl eq_refl).
Defined.

Lemma stop_flags_constant_witness :
  entry (stop_flags 2 4 FULLY_REPARAMETERIZED) 1 3 = Some 0 /\
  entry (stop_flags 2 4 NOT_REPARAMETERIZED) 1 3 = Some 1.
Proof.
  destruct (stop_flags_constant (Scalar := Z) 2 4) as (_ & _ & _ & Hentry).
  exact (Hentry 1%nat 3%nat ltac:(lia) ltac:(lia)).
Defined.



Lemma output_follows_fluents_witness :
  demo.interm_fluents !! 1%nat
  = Some ("slip"%string, demo.fluent bool_ [2%nat; 1%nat] [1; 1],
          demo.fluent float32 [2%nat; 1%nat] [-2; -2]) /\
  _output demo.interm_fluents !! 1%nat
  = Some (_dtype (mkTensor bool_ [2%nat; 1%nat] [1; 1])).
Proof.
  split; [reflexivity |].
  destruct (output_follows_fluents demo.interm_fluents) as (_ & _ & _ & Hat).
  exact (Hat 1%nat _ _ _ eq_refl).
Defined.

Lemma call_rejects_input_witness :
  is_ok (tf_split_1_1 demo.wide_input) = false /\
  __call__ demo.wide_input demo.state demo.world = (Raise ValueError, demo.world).
Proof.
  split; [reflexivity |].
  exact (call_rejects_input demo.wide_input demo.state demo.world eq_refl).
Defined.

Lemma call_needs_interm_fluents_witness :
  __call__ demo.input demo.state demo.bare_world
  = (Raise ValueError, {| self := self demo.bare_world; ext := 8%nat |}).
Proof.
  apply (call_needs_interm_fluents demo.input demo.state demo.bare_world
           demo.action demo.scope demo.next_state_fluents demo.scope
           7%nat 7%nat 8%nat);
    vm_compute; reflexivity.
Defined.

Lemma call_uses_input_through_policy_witness :
  __call__ demo.input demo.state demo.world
  = __call__ demo.later_input demo.state demo.world.
Proof.
  apply (call_uses_input_through_policy demo.input demo.later_input demo.state demo.world);
    reflexivity.
Defined.

Lemma step_log_prob_is_sum_witness :
  out_log_prob demo.output
  = {| dtype := float32; shape := [2%nat; 1%nat];
       data := map (fun b => group_log_prob demo.interm_fluents b
                             + group_log_prob demo.next_state_fluents b)
                   (seq 0 2) |}.
Proof.
  destruct (step_log_prob_is_sum _ _ _ _ _ _ demo_step)
    as (action & scope & interm & next & sampled & e1 & e2 & e3 &
        Hpolicy & Hscope & Hcpfs & _ & _ & Hsum).
  identify Hpolicy demo_policy. identify Hscope demo_scope. identify Hcpfs demo_cpfs.
  exact (Hsum float32 2%nat ltac:(discriminate)
           ltac:(repeat constructor) ltac:(repeat constructor)).
Defined.

End Instance.
